(** * The text-similarity ranking engine of Skills-MCP-GLPI

    A shallow embedding of [src/services/similarity_service.py]
    ([TextSimilarity] and [SimilarityService]) and the properties its
    specification states about it.

    Conventions of the embedding.
    - A Python [str] is a list of Unicode code points ([ustring]).
    - A Python [float] is modelled by a real number: the arithmetic is the
      exact one, rounding is not modelled.
    - The values found in a ticket dictionary are [pyval]s: [None], a
      string, or an integer (the tests use integer ids; an integer where a
      text is expected is the malformed input that makes the metrics raise).
    - Code that can raise lives in the [exc] monad.
    - What the module takes from the Python runtime (str.lower, the
      Unicode database, the classes of the [re] module, difflib's matching
      blocks) is the interface [PyRuntime]; [ascii_runtime] is an instance
      that is exact on ASCII text.
    - The process pool is an explicit environment: either it cannot be
      used, or it runs and hands the futures back in some completion
      order, some of them possibly broken. *)

From Stdlib Require Import List ZArith NArith Reals Lra Lia String Ascii.
From Stdlib Require Import Permutation Sorted.
From stdpp Require Import gmap strings.
Import ListNotations.

(** ** Python values, exceptions *)

Abbreviation ustring := (list N).

Inductive pyval :=
| PyNone
| PyStr (s : ustring)
| PyInt (n : Z).

(** [not v] is [negb (truthy v)]. *)
Definition truthy (v : pyval) : bool :=
  match v with
  | PyNone => false
  | PyStr [] => false
  | PyStr (_ :: _) => true
  | PyInt n => negb (n =? 0)%Z
  end.

Inductive pyexn :=
| AttributeError (msg : string)
| TypeError (msg : string).

(** [str(e)] *)
Definition exn_str (e : pyexn) : string :=
  match e with
  | AttributeError msg => msg
  | TypeError msg => msg
  end.

Inductive exc (A : Type) :=
| Ret (a : A)
| Raise (e : pyexn).
Arguments Ret {A} a.
Arguments Raise {A} e.

#[global] Instance exc_ret : MRet exc := @Ret.
#[global] Instance exc_bind : MBind exc :=
  fun A B f m => match m with Ret a => f a | Raise e => Raise e end.

(** [len(v)] *)
Definition py_len (v : pyval) : exc nat :=
  match v with
  | PyStr s => Ret (length s)
  | PyNone => Raise (TypeError "object of type 'NoneType' has no len()")
  | PyInt _ => Raise (TypeError "object of type 'int' has no len()")
  end.

(** The bytes of an ASCII literal as code points. *)
Definition u (s : string) : ustring :=
  map N_of_ascii (list_ascii_of_string s).

(** ** What the module uses of the Python runtime *)

Class PyRuntime := {
  (** [str.lower] *)
  str_lower : ustring -> ustring;
  (** [unicodedata.normalize('NFD', .)] *)
  unicodedata_nfd : ustring -> ustring;
  (** [unicodedata.category(c) == 'Mn'] *)
  category_Mn : N -> bool;
  (** the class [\w] of [re] on [str] patterns *)
  re_word : N -> bool;
  (** the class [\s] of [re]; also the whitespace of [str.split] and
      [str.strip] *)
  re_space : N -> bool;
  (** the sum of the sizes of the blocks of
      [SequenceMatcher(None, a, b).get_matching_blocks()] *)
  matching_size : ustring -> ustring -> nat
}.

Definition SPACE : N := 32.

(** ** TextSimilarity *)

Section TextSimilarity.
Context {rt : PyRuntime}.

(** [re.sub(r'[^\w\s]', ' ', text)] *)
Definition re_sub_special (text : ustring) : ustring :=
  map (fun c => if re_word c || re_space c then c else SPACE) text.

(** [re.sub(r'\s+', ' ', text)]: [in_run] tells that the previous
    character was whitespace, already replaced. *)
Fixpoint re_sub_spaces (in_run : bool) (text : ustring) : ustring :=
  match text with
  | [] => []
  | c :: rest =>
      if re_space c
      then (if in_run then re_sub_spaces true rest
            else SPACE :: re_sub_spaces true rest)
      else c :: re_sub_spaces false rest
  end.

Fixpoint lstrip (text : ustring) : ustring :=
  match text with
  | [] => []
  | c :: rest => if re_space c then lstrip rest else text
  end.

Definition rstrip (text : ustring) : ustring := rev (lstrip (rev text)).

(** [text.strip()] *)
Definition strip (text : ustring) : ustring := rstrip (lstrip text).

(** The body of [normalize_text] on a non-empty string. *)
Definition normalize_str (text : ustring) : ustring :=
  let text := unicodedata_nfd (str_lower text) in
  let text := List.filter (fun c => negb (category_Mn c)) text in
  let text := re_sub_special text in
  strip (re_sub_spaces false text).

Definition normalize_text (text : pyval) : exc ustring :=
  if negb (truthy text) then Ret []
  else match text with
       | PyStr s => Ret (normalize_str s)
       | PyNone => Raise (AttributeError "'NoneType' object has no attribute 'lower'")
       | PyInt _ => Raise (AttributeError "'int' object has no attribute 'lower'")
       end.

(** [text.split()]: [cur] is the word being read. *)
Fixpoint split_ws (cur : ustring) (text : ustring) : list ustring :=
  match text with
  | [] => match cur with [] => [] | _ => [cur] end
  | c :: rest =>
      if re_space c
      then match cur with
           | [] => split_ws [] rest
           | _ => cur :: split_ws [] rest
           end
      else split_ws (cur ++ [c]) rest
  end.

Definition str_split (text : ustring) : list ustring := split_ws [] text.

(** The stop words of [extract_keywords], in the order of the source
    (Portuguese, English, Spanish; the literal repeats some words). *)
Definition stop_words : gset ustring :=
  list_to_set [
    u "o"; u "a"; u "os"; u "as"; u "de"; u "da"; u "do"; u "dos"; u "das";
    u "que"; u "e"; u "em"; u "um"; u "uma"; u "uns"; u "umas"; u "para";
    u "com"; u "sem"; u "como"; u "por"; u "no"; u "na"; u "nos"; u "nas";
    u "se"; u "te"; u "lo"; u "le"; u "lhe"; u "mais"; u "mas"; u "muito";
    u "muita"; u "muitos"; u "muitas"; u "pouco"; u "pouca"; u "poucos";
    u "poucas"; u "bem"; u "mal"; [106; 225]%N; u "ainda";
    [116; 97; 109; 98; 233; 109]%N; [116; 97; 109; 98; 233; 109]%N; u "nem";
    [115; 243]%N; [110; 227; 111]%N; u "sim"; u "ou"; u "outra"; u "outro";
    u "outras"; u "outros"; u "todo"; u "toda"; u "todos"; u "todas";
    u "qual"; u "quais"; u "qualquer"; u "quaisquer"; u "algum"; u "alguma";
    u "alguns"; u "algumas"; u "nenhum"; u "nenhuma"; u "nenhuns";
    u "nenhumas"; u "todo"; u "toda"; u "todos"; u "todas"; u "cada";
    u "qual"; u "qualquer"; u "muito"; u "pouco"; u "the"; u "and"; u "or";
    u "but"; u "in"; u "on"; u "at"; u "to"; u "for"; u "of"; u "with";
    u "by"; u "from"; u "up"; u "about"; u "into"; u "through"; u "during";
    u "before"; u "after"; u "above"; u "below"; u "between"; u "among";
    u "under"; u "over"; u "above"; u "can"; u "cannot"; u "will"; u "just";
    u "should"; u "could"; u "would"; u "might"; u "must"; u "shall";
    u "may"; u "this"; u "that"; u "these"; u "those"; u "i"; u "you";
    u "he"; u "she"; u "it"; u "we"; u "they"; u "what"; u "which"; u "who";
    u "when"; u "where"; u "why"; u "how"; u "all"; u "each"; u "every";
    u "both"; u "few"; u "more"; u "most"; u "other"; u "some"; u "such";
    u "only"; u "own"; u "same"; u "so"; u "than"; u "too"; u "very";
    u "just"; u "now"; u "el"; u "la"; u "de"; u "que"; u "y"; u "a"; u "en";
    u "un"; u "es"; u "se"; u "no"; u "te"; u "lo"; u "le"; u "da"; u "su";
    u "por"; u "son"; u "con"; u "para"; u "al"; u "una"; u "del"; u "los";
    u "las"; u "si"; u "me"; u "ya"; u "muy"; u "mas"; u "pero"; u "como";
    u "ser"; u "hay"; u "este"; u "esta"; u "esto"; u "todos"; u "todo";
    u "tiene"; u "hacer"; u "estar"; u "un"; u "una"; u "unos"; u "unas";
    u "mi"; u "mis"; u "tu"; u "tus"; u "su"; u "sus"; u "nuestro";
    u "nuestra"; u "nuestros"; u "nuestras"
  ].

(** [w in stop_words] *)
Definition is_stop_word (w : ustring) : bool :=
  @bool_decide (w ∈ stop_words) (gset_elem_of_dec w stop_words).

Definition extract_keywords (text : pyval) (min_length : Z) : exc (gset ustring) :=
  if negb (truthy text) then Ret ∅
  else
    normalized ← normalize_text text;
    let words := str_split normalized in
    Ret (list_to_set
           (List.filter
              (fun w => (min_length <=? Z.of_nat (length w))%Z
                        && negb (is_stop_word w))
              words)).

(** [not s] for a set *)
Definition set_empty (s : gset ustring) : bool := bool_decide (s = ∅).

Definition jaccard_similarity (set1 set2 : gset ustring) : R :=
  if set_empty set1 && set_empty set2 then 1%R
  else if set_empty set1 || set_empty set2 then 0%R
  else
    let intersection := size (set1 ∩ set2) in
    let union := size (set1 ∪ set2) in
    if (0 <? union)%nat then (INR intersection / INR union)%R else 0%R.

(** [words.count(word)] *)
Definition list_count (word : ustring) (words : list ustring) : nat :=
  length (List.filter (fun w => bool_decide (w = word)) words).

(** [x == y] on floats *)
Definition float_eqb (x y : R) : bool := if Req_dec_T x y then true else false.

(** [x >= y] on floats *)
Definition float_geb (x y : R) : bool := if Rge_dec x y then true else false.

(** [sum(...)] of floats, from the left, starting at 0 *)
Definition float_sum (l : list R) : R := fold_left Rplus l 0%R.

Definition is_nil {A} (l : list A) : bool :=
  match l with [] => true | _ => false end.

Definition cosine_similarity (text1 text2 : pyval) : exc R :=
  if negb (truthy text1) || negb (truthy text2) then Ret 0%R
  else
    n1 ← normalize_text text1;
    let words1 := str_split n1 in
    n2 ← normalize_text text2;
    let words2 := str_split n2 in
    if is_nil words1 || is_nil words2 then Ret 0%R
    else
      let vocab := elements (list_to_set (words1 ++ words2) : gset ustring) in
      let vec1 := map (fun word => list_count word words1) vocab in
      let vec2 := map (fun word => list_count word words2) vocab in
      let dot_product := list_sum (zip_with Nat.mul vec1 vec2) in
      let norm1 := sqrt (INR (list_sum (map (fun a => a * a) vec1))) in
      let norm2 := sqrt (INR (list_sum (map (fun b => b * b) vec2))) in
      if float_eqb norm1 0 || float_eqb norm2 0 then Ret 0%R
      else Ret (INR dot_product / (norm1 * norm2))%R.

(** The distance matrix [dp] of [levenshtein_distance]. *)
Definition mget (dp : list (list nat)) (i j : nat) : nat :=
  nth j (nth i dp []) 0.

Definition mset (dp : list (list nat)) (i j v : nat) : list (list nat) :=
  <[i := <[j := v]> (nth i dp [])]> dp.

(** The loops of [levenshtein_distance] over two strings. *)
Definition levenshtein_dp (text1 text2 : ustring) : nat :=
  let m := length text1 in
  let n := length text2 in
  let dp := repeat (repeat 0 (n + 1)) (m + 1) in
  let dp := fold_left (fun dp i => mset dp i 0 i) (seq 0 (m + 1)) dp in
  let dp := fold_left (fun dp j => mset dp 0 j j) (seq 0 (n + 1)) dp in
  let dp :=
    fold_left
      (fun dp i =>
         fold_left
           (fun dp j =>
              if N.eqb (nth (i - 1) text1 0%N) (nth (j - 1) text2 0%N)
              then mset dp i j (mget dp (i - 1) (j - 1))
              else mset dp i j
                     (1 + Nat.min (mget dp (i - 1) j)
                            (Nat.min (mget dp i (j - 1))
                                     (mget dp (i - 1) (j - 1)))))
           (seq 1 n) dp)
      (seq 1 m) dp in
  mget dp m n.

Definition levenshtein_distance (text1 text2 : pyval) : exc nat :=
  if negb (truthy text1)
  then (if truthy text2 then py_len text2 else Ret 0)
  else if negb (truthy text2) then py_len text1
  else
    n1 ← normalize_text text1;
    n2 ← normalize_text text2;
    Ret (levenshtein_dp n1 n2).

Definition levenshtein_similarity (text1 text2 : pyval) : exc R :=
  if negb (truthy text1) && negb (truthy text2) then Ret 1%R
  else if negb (truthy text1) || negb (truthy text2) then Ret 0%R
  else
    distance ← levenshtein_distance text1 text2;
    len1 ← py_len text1;
    len2 ← py_len text2;
    let max_len := Nat.max len1 len2 in
    if (0 <? max_len)%nat
    then Ret (1 - INR distance / INR max_len)%R
    else Ret 1%R.

Definition tfidf_similarity (text1 text2 : pyval) : exc R :=
  if negb (truthy text1) || negb (truthy text2) then Ret 0%R
  else
    n1 ← normalize_text text1;
    let words1 := str_split n1 in
    n2 ← normalize_text text2;
    let words2 := str_split n2 in
    if is_nil words1 || is_nil words2 then Ret 0%R
    else
      (* freq1 = Counter(words1): freq1[w] is [list_count w words1],
         and [w in freq1] says that this count is positive *)
      let vocab := elements (list_to_set (words1 ++ words2) : gset ustring) in
      let tfidf (word : ustring) (words : list ustring) : R :=
        let tf := (INR (list_count word words) / INR (length words))%R in
        let df := length (List.filter (fun f => (0 <? list_count word f)%nat)
                                      [words1; words2]) in
        let idf := (ln (2 / (INR df + 1)) + 1)%R in
        (tf * idf)%R in
      let vec1 := map (fun word => tfidf word words1) vocab in
      let vec2 := map (fun word => tfidf word words2) vocab in
      let dot_product := float_sum (zip_with Rmult vec1 vec2) in
      let norm1 := sqrt (float_sum (map (fun a => a * a)%R vec1)) in
      let norm2 := sqrt (float_sum (map (fun b => b * b)%R vec2)) in
      if float_eqb norm1 0 || float_eqb norm2 0 then Ret 0%R
      else Ret (dot_product / (norm1 * norm2))%R.

(** Modelled from the spec: [SequenceMatcher.ratio] of difflib, which is
    not part of the repository: "2*M / T where M is total length of
    matching blocks [...] and T is the sum of both normalized string
    lengths" (1.0 when T is 0). *)
Definition ratio (a b : ustring) : R :=
  let T := (length a + length b)%nat in
  if (0 <? T)%nat then (2 * INR (matching_size a b) / INR T)%R else 1%R.

Definition sequence_similarity (text1 text2 : pyval) : exc R :=
  if negb (truthy text1) || negb (truthy text2) then Ret 0%R
  else
    norm1 ← normalize_text text1;
    norm2 ← normalize_text text2;
    Ret (ratio norm1 norm2).

(** The [weights] dictionary of [combined_similarity]. *)
Definition weight_sequence : R := 0.30.
Definition weight_cosine : R := 0.30.
Definition weight_jaccard : R := 0.25.
Definition weight_title_bonus : R := 0.15.

Definition combined_similarity (text1 text2 title1 title2 : pyval) : exc R :=
  if negb (truthy text1) || negb (truthy text2) then Ret 0%R
  else
    seq_sim ← sequence_similarity text1 text2;
    cos_sim ← cosine_similarity text1 text2;
    keywords1 ← extract_keywords text1 3;
    keywords2 ← extract_keywords text2 3;
    let jac_sim := jaccard_similarity keywords1 keywords2 in
    title_sim ← (if truthy title1 && truthy title2
                 then sequence_similarity title1 title2
                 else Ret 0%R);
    let combined :=
      (weight_sequence * seq_sim + weight_cosine * cos_sim
       + weight_jaccard * jac_sim + weight_title_bonus * title_sim)%R in
    Ret (Rmin 1 combined).

End TextSimilarity.

(** ** SimilarityService *)

(** The result dictionaries of [_calculate_single_similarity]: the eight
    keys of a computed result, or the four keys ([id1], [id2], [error],
    [combined] = 0.0) of a failed one. *)
Record metrics := {
  sequence : R;
  cosine : R;
  jaccard : R;
  levenshtein : R;
  tfidf : R;
  combined : R
}.

Inductive sim_result :=
| Scored (id1 id2 : pyval) (m : metrics)
| Failed (id1 id2 : pyval) (error : string).

Definition result_id1 (r : sim_result) : pyval :=
  match r with Scored id1 _ _ | Failed id1 _ _ => id1 end.

Definition result_id2 (r : sim_result) : pyval :=
  match r with Scored _ id2 _ | Failed _ id2 _ => id2 end.

(** [result['combined']] *)
Definition result_combined (r : sim_result) : R :=
  match r with Scored _ _ m => combined m | Failed _ _ _ => 0%R end.


(** ['error' in result] *)
Definition has_error (r : sim_result) : bool :=
  match r with Scored _ _ _ => false | Failed _ _ _ => true end.

(** A ticket is a dictionary; [dict_get d k] is [d.get(k, '')]. *)
Abbreviation ticket := (gmap string pyval).

Definition dict_get (d : ticket) (k : string) : pyval :=
  default (PyStr []) (d !! k).

(** The argument tuple [(id1, text1, title1, id2, text2, title2)]. *)
Definition task : Type := pyval * pyval * pyval * pyval * pyval * pyval.

Record SimilarityService := {
  max_workers : Z;
  max_items : Z
}.

(** [l[:k]] for a Python integer [k] *)
Definition py_take {A} (k : Z) (l : list A) : list A :=
  if (0 <=? k)%Z then firstn (Z.to_nat k) l
  else firstn (length l - Z.to_nat (- k)) l.

(** *** The process pool

    A pool that runs completes its futures in an order of its own:
    [completion] picks, at each step, one of the futures still pending
    (by position, modulo their number); when the picks run out the rest
    completes in submission order. [broken_future i] tells that
    [future.result()] raises for the i-th submitted task. A pool that
    cannot be used fails when it is created or when the tasks are
    submitted, before any result is collected. *)
Record pool_run := {
  completion : list nat;
  broken_future : nat -> bool
}.

Inductive pool_env :=
| PoolUnavailable
| PoolRuns (run : pool_run).

Fixpoint remove_nth {A} (k : nat) (l : list A) : list A :=
  match l, k with
  | [], _ => []
  | _ :: rest, O => rest
  | x :: rest, S k' => x :: remove_nth k' rest
  end.

Fixpoint as_completed {A} (picks : list nat) (pending : list A) : list A :=
  match picks with
  | [] => pending
  | p :: picks' =>
      let k := p mod length pending in
      match nth_error pending k with
      | Some x => x :: as_completed picks' (remove_nth k pending)
      | None => []
      end
  end.

(** [with ProcessPoolExecutor(max_workers=self.max_workers)]: the
    constructor raises ValueError unless [max_workers] is positive. *)
Definition start_pool (self : SimilarityService) (env : pool_env) : option pool_run :=
  if (max_workers self <=? 0)%Z then None
  else match env with
       | PoolUnavailable => None
       | PoolRuns run => Some run
       end.

(** [similarities.sort(key=lambda x: x.get('combined', 0), reverse=True)]:
    a stable sort, larger keys first. *)
Fixpoint insert_desc (x : sim_result) (l : list sim_result) : list sim_result :=
  match l with
  | [] => [x]
  | y :: rest =>
      if float_geb (result_combined x) (result_combined y)
      then x :: y :: rest
      else y :: insert_desc x rest
  end.

Definition sort_by_combined (l : list sim_result) : list sim_result :=
  fold_right insert_desc [] l.

Section SimilarityService.
Context {rt : PyRuntime}.

(** The [try] block of [_calculate_single_similarity]. *)
Definition calculate_metrics (args : task) : exc sim_result :=
  let '(id1, text1, title1, id2, text2, title2) := args in
  v_sequence ← sequence_similarity text1 text2;
  v_cosine ← cosine_similarity text1 text2;
  keywords1 ← extract_keywords text1 3;
  keywords2 ← extract_keywords text2 3;
  let v_jaccard := jaccard_similarity keywords1 keywords2 in
  v_levenshtein ← levenshtein_similarity text1 text2;
  v_tfidf ← tfidf_similarity text1 text2;
  v_combined ← combined_similarity text1 text2 title1 title2;
  Ret (Scored id1 id2
         {| sequence := v_sequence; cosine := v_cosine;
            jaccard := v_jaccard; levenshtein := v_levenshtein;
            tfidf := v_tfidf; combined := v_combined |}).

Definition _calculate_single_similarity (args : task) : sim_result :=
  let '(id1, _, _, id2, _, _) := args in
  match calculate_metrics args with
  | Ret results => results
  | Raise e => Failed id1 id2 (exn_str e)
  end.

(** ['error' not in result and result['combined'] >= threshold] *)
Definition accepted (threshold : R) (result : sim_result) : bool :=
  negb (has_error result) && float_geb (result_combined result) threshold.

(** The loop over [as_completed(future_to_args)]: the futures are the
    submitted tasks with their submission index. *)
Definition collect_parallel (run : pool_run) (threshold : R)
    (args_list : list task) : list sim_result :=
  let futures := combine (seq 0 (length args_list)) args_list in
  flat_map
    (fun future : nat * task =>
       if broken_future run (fst future) then []
       else
         let result := _calculate_single_similarity (snd future) in
         if accepted threshold result then [result] else [])
    (as_completed (completion run) futures).

(** The sequential loop of the fallback. *)
Definition collect_sequential (threshold : R) (args_list : list task) : list sim_result :=
  flat_map
    (fun args =>
       let result := _calculate_single_similarity args in
       if accepted threshold result then [result] else [])
    args_list.

(** The tuple [args] built for one candidate in [find_similar_tickets]:
    both id slots hold the id of the candidate. *)
Definition candidate_args (target_text target_title : pyval) (ticket : ticket) : task :=
  (dict_get ticket "id", target_text, target_title,
   dict_get ticket "id", dict_get ticket "content", dict_get ticket "title").

Definition find_similar_tickets (self : SimilarityService) (env : pool_env)
    (target_ticket : ticket) (candidate_tickets : list ticket)
    (threshold : R) (max_results : Z) : list sim_result :=
  if is_nil candidate_tickets then []
  else
    let candidate_tickets :=
      if (max_items self <? Z.of_nat (length candidate_tickets))%Z
      then py_take (max_items self) candidate_tickets
      else candidate_tickets in
    let target_text := dict_get target_ticket "content" in
    let target_title := dict_get target_ticket "title" in
    let args_list :=
      map (candidate_args target_text target_title) candidate_tickets in
    let similarities :=
      match start_pool self env with
      | Some run => collect_parallel run threshold args_list
      | None => collect_sequential threshold args_list
      end in
    py_take max_results (sort_by_combined similarities).

Definition calculate_similarity_matrix (self : SimilarityService) (env : pool_env)
    (tickets : list ticket) (threshold : R) : list sim_result :=
  if (length tickets <? 2)%nat then []
  else
    let tickets :=
      if (max_items self <? Z.of_nat (length tickets))%Z
      then py_take (max_items self) tickets
      else tickets in
    let pairs :=
      flat_map
        (fun i =>
           map (fun j =>
                  let ticket1 := nth i tickets ∅ in
                  let ticket2 := nth j tickets ∅ in
                  (dict_get ticket1 "id", dict_get ticket1 "content",
                   dict_get ticket1 "title", dict_get ticket2 "id",
                   dict_get ticket2 "content", dict_get ticket2 "title"))
               (seq (i + 1) (length tickets - (i + 1))))
        (seq 0 (length tickets)) in
    let similarities :=
      match start_pool self env with
      | Some run => collect_parallel run threshold pairs
      | None => []
      end in
    sort_by_combined similarities.

End SimilarityService.

(** ** A runtime for ASCII text

    On strings of code points below 128 these tables are CPython's:
    [str.lower] maps A-Z to a-z, NFD changes nothing, no character is a
    nonspacing mark, [\w] is [[A-Za-z0-9_]] and [\s] is the characters
    9-13 and 28-32. Other code points are left alone and belong to no
    class. *)
Module AsciiRuntime.

Definition lower_char (c : N) : N :=
  if (65 <=? c)%N && (c <=? 90)%N then (c + 32)%N else c.

Definition is_word (c : N) : bool :=
  ((48 <=? c)%N && (c <=? 57)%N) || ((65 <=? c)%N && (c <=? 90)%N)
  || (c =? 95)%N || ((97 <=? c)%N && (c <=? 122)%N).

Definition is_space (c : N) : bool :=
  ((9 <=? c)%N && (c <=? 13)%N) || ((28 <=? c)%N && (c <=? 32)%N).

Fixpoint common_prefix (a b : ustring) : nat :=
  match a, b with
  | x :: a', y :: b' => if (x =? y)%N then S (common_prefix a' b') else 0
  | _, _ => 0
  end.

(** Modelled from the spec: difflib's [find_longest_match], which is not
    part of the repository; the "greedy longest-common-substring" step
    of the spec: the longest block [a[i:i+k] == b[j:j+k]], the one
    starting earliest in [a], then earliest in [b]. *)
Definition find_longest_match (a b : ustring) : nat * nat * nat :=
  fold_left
    (fun best i =>
       fold_left
         (fun best j =>
            let k := common_prefix (skipn i a) (skipn j b) in
            if (snd best <? k)%nat then (i, j, k) else best)
         (seq 0 (length b)) best)
    (seq 0 (length a)) (0, 0, 0).

(** Modelled from the spec: the total size of difflib's matching
    blocks, which is not part of the repository; the "recursive match"
    of the spec, to the left and to the right of the longest block.
    difflib's heuristic that ignores popular characters in texts of 200
    characters or more is left out. *)
Fixpoint matching_blocks_size (fuel : nat) (a b : ustring) : nat :=
  match fuel with
  | O => 0
  | S fuel' =>
      let '(i, j, k) := find_longest_match a b in
      if (k =? 0)%nat then 0
      else matching_blocks_size fuel' (firstn i a) (firstn j b) + k
           + matching_blocks_size fuel' (skipn (i + k) a) (skipn (j + k) b)
  end.

Definition ascii_runtime : PyRuntime := {|
  str_lower := map lower_char;
  unicodedata_nfd := fun s => s;
  category_Mn := fun _ => false;
  re_word := is_word;
  re_space := is_space;
  matching_size := fun a b => matching_blocks_size (S (length a)) a b
|}.

End AsciiRuntime.


(** ** Definitions used by the statements *)

(** What [normalize_text] returns on a string. *)
Definition norm {rt : PyRuntime} (s : ustring) : ustring :=
  match s with [] => [] | _ => normalize_str s end.

(** The classic unit-cost edit distance. [edits s t n]: the string [s]
    is turned into [t] by an edit script with [n] insertions, deletions
    and substitutions in all (characters kept are free). *)
Inductive edits : ustring -> ustring -> nat -> Prop :=
| edits_nil : edits [] [] 0
| edits_keep c s t n : edits s t n -> edits (c :: s) (c :: t) n
| edits_subst a b s t n : edits s t n -> edits (a :: s) (b :: t) (S n)
| edits_delete a s t n : edits s t n -> edits (a :: s) t (S n)
| edits_insert b s t n : edits s t n -> edits s (b :: t) (S n).

(** [d] is the edit distance of [s] and [t]: the cost of a cheapest
    script. *)
Definition edit_distance (s t : ustring) (d : nat) : Prop :=
  edits s t d /\ forall n, edits s t n -> d <= n.

(** The recurrence of the distance matrix, read on the strings
    themselves. *)
Fixpoint lev (s t : ustring) : nat :=
  match s with
  | [] => length t
  | a :: s' =>
      (fix lev_s (t : ustring) : nat :=
         match t with
         | [] => length s
         | b :: t' =>
             if (a =? b)%N then lev s' t'
             else 1 + Nat.min (lev s' t) (Nat.min (lev_s t') (lev s' t'))
         end) t
  end.

(** The matrix has [m + 1] rows of [n + 1] cells. *)
Definition dp_shape (m n : nat) (dp : list (list nat)) : Prop :=
  length dp = m + 1 /\ forall i, i <= m -> length (nth i dp []) = n + 1.

Section NormalForm.
Context {rt : PyRuntime}.

(** Every whitespace character of the text is a SPACE, and none is
    followed by another whitespace character. *)
Fixpoint collapsed (text : ustring) : Prop :=
  match text with
  | [] => True
  | c :: rest =>
      (re_space c = true ->
       c = SPACE /\ match rest with
                    | [] => True
                    | c' :: _ => re_space c' = false
                    end)
      /\ collapsed rest
  end.

(** No two spaces in a row. *)
Definition single_spaces (text : ustring) : Prop :=
  forall i, nth_error text i = Some SPACE -> nth_error text (S i) <> Some SPACE.

(** No whitespace at either end. *)
Definition no_outer_whitespace (text : ustring) : Prop :=
  (forall c, head text = Some c -> re_space c = false)
  /\ (forall c, last text = Some c -> re_space c = false).

(** Two facts about the Unicode database that idempotence rests on.
    The space is whitespace and is not a nonspacing mark. *)
Definition space_is_whitespace : Prop :=
  re_space SPACE = true /\ category_Mn SPACE = false.

(** A text made of spaces and of word characters (neither whitespace
    nor nonspacing marks) that occur in a lower-cased, decomposed string
    is left as it is by [str.lower] and by NFD: such characters have no
    lower-case mapping, no decomposition and combining class 0. *)
Definition lowered_decomposed_stable : Prop :=
  forall s t : ustring,
    (forall c, In c t ->
       c = SPACE
       \/ (In c (unicodedata_nfd (str_lower s))
           /\ re_word c = true /\ re_space c = false /\ category_Mn c = false)) ->
    str_lower t = t /\ unicodedata_nfd t = t.

End NormalForm.

(** Consecutive entries of a result list have non-increasing combined
    scores. *)
Definition descending (l : list sim_result) : Prop :=
  forall i a b,
    nth_error l i = Some a -> nth_error l (S i) = Some b ->
    (result_combined b <= result_combined a)%R.

(** [a] may stand before [b] in a list sorted by score, largest first. *)
Definition score_ge (a b : sim_result) : Prop :=
  (result_combined b <= result_combined a)%R.

(** The future of the i-th task hands its result over: always so in the
    sequential fallback. *)
Definition future_ok (self : SimilarityService) (env : pool_env) (i : nat) : Prop :=
  match start_pool self env with
  | Some run => broken_future run i = false
  | None => True
  end.

(** Sample data: a service with the default settings, a pool that
    completes its second future first, and three tickets. *)
Definition sample_service : SimilarityService :=
  {| max_workers := 2; max_items := 10 |}.

Definition sample_pool : pool_env :=
  PoolRuns {| completion := [1]; broken_future := fun _ => false |}.


Definition printer_ticket (id : Z) : ticket :=
  {[ "id" := PyInt id;
     "title" := PyStr (u "Impressora");
     "content" := PyStr (u "Problema com impressora HP") ]}.

Definition malformed_ticket (id : Z) : ticket :=
  {[ "id" := PyInt id;
     "title" := PyStr (u "Rede");
     "content" := PyInt 7 ]}.

Section RankerViews.
Context {rt : PyRuntime}.

(** The candidates that [find_similar_tickets] keeps after the cap. *)
Definition candidates_kept (self : SimilarityService) (candidate_tickets : list ticket)
    : list ticket :=
  if (max_items self <? Z.of_nat (length candidate_tickets))%Z
  then py_take (max_items self) candidate_tickets
  else candidate_tickets.

(** The results that reach the collecting loop, in the order in which
    they reach it, before the threshold is applied. *)
Definition arrived (self : SimilarityService) (env : pool_env) (args_list : list task)
    : list sim_result :=
  match start_pool self env with
  | Some run =>
      flat_map
        (fun future : nat * task =>
           if broken_future run (fst future) then []
           else [_calculate_single_similarity (snd future)])
        (as_completed (completion run)
                      (combine (seq 0 (length args_list)) args_list))
  | None => map _calculate_single_similarity args_list
  end.

End RankerViews.

(** ** Definitions used by further statements *)

(** The sum of [h x] over the elements [x] of a list. *)
Definition Rsum {X} (h : X -> R) (l : list X) : R :=
  fold_right (fun x acc => h x + acc)%R 0%R l.

(** The words of a text, as the metrics see them. *)
Definition words_of {rt : PyRuntime} (text : ustring) : list ustring :=
  str_split (norm text).

(** The inner function [tfidf] of [tfidf_similarity]: [df] counts the
    documents that hold the word. *)
Definition doc_frequency (word : ustring) (docs : list (list ustring)) : nat :=
  length (List.filter (fun f => (0 <? list_count word f)%nat) docs).

Definition tfidf_weight (word : ustring) (words : list ustring)
    (docs : list (list ustring)) : R :=
  (INR (list_count word words) / INR (length words)
   * (ln (2 / (INR (doc_frequency word docs) + 1)) + 1))%R.

(** A ticket without a "content" key. *)
Definition blank_ticket (id : Z) : ticket :=
  {[ "id" := PyInt id; "title" := PyStr (u "Sem texto") ]}.

(** The tuple built for the pair (i, j) in [calculate_similarity_matrix]. *)
Definition pair_args (tickets : list ticket) (i j : nat) : task :=
  let ticket1 := nth i tickets ∅ in
  let ticket2 := nth j tickets ∅ in
  (dict_get ticket1 "id", dict_get ticket1 "content", dict_get ticket1 "title",
   dict_get ticket2 "id", dict_get ticket2 "content", dict_get ticket2 "title").

(** The list [pairs] of [calculate_similarity_matrix]. *)
Definition ticket_pairs (tickets : list ticket) : list task :=
  flat_map
    (fun i => map (pair_args tickets i) (seq (i + 1) (length tickets - (i + 1))))
    (seq 0 (length tickets)).

(** * The caller in [ticket_service.py]

    [TicketService.find_similar_tickets] validates the id, fetches the
    reference ticket and the candidates from GLPI and hands them to
    [SimilarityService.find_similar_tickets]. The GLPI client is outside
    this development: its answers are given. *)

(** The exceptions of [src/models/exceptions.py] that can leave the
    caller: the two it raises itself, and whatever the client raises. *)
Inductive glpi_error :=
| ValidationError (message : string) (field : string)
| NotFoundError (resource : string) (identifier : Z)
| ClientError (status_code : Z) (message : string).

(** [ticket_response id] is the outcome of
    [glpi_client.get("/apirest.php/Ticket/<id>")], a JSON object or an
    exception; [list_tickets limit] is the outcome of
    [self.list_tickets(limit=limit)]. *)
Record glpi := {
  ticket_response : Z -> glpi_error + ticket;
  list_tickets : Z -> glpi_error + list ticket
}.

(** The keyword arguments the caller reads, each one absent or given. *)
Record similar_kwargs := {
  kw_max_items : option Z;
  kw_threshold : option R;
  kw_max_results : option Z
}.

Definition no_kwargs : similar_kwargs :=
  {| kw_max_items := None; kw_threshold := None; kw_max_results := None |}.

(** [d.get(k)], with [None] for a missing key. *)
Definition dict_get_none (d : ticket) (k : string) : pyval :=
  default PyNone (d !! k).

(** [v != n] for an integer [n]. *)
Definition py_ne_int (v : pyval) (n : Z) : bool :=
  match v with
  | PyInt m => negb (m =? n)%Z
  | PyNone | PyStr _ => true
  end.

(** The dictionary with keys "id", "title" and "content" built from a
    GLPI ticket. *)
Definition similarity_view (t : ticket) : ticket :=
  {[ "id" := dict_get_none t "id";
     "title" := dict_get t "name";
     "content" := dict_get t "content" ]}.

Module TicketService.

Definition get_ticket (client : glpi) (ticket_id : Z) : glpi_error + ticket :=
  if (ticket_id <=? 0)%Z
  then inl (ValidationError "ticket_id must be positive" "ticket_id")
  else
    match ticket_response client ticket_id with
    | inl e => inl e
    | inr result =>
        if (size result =? 0)%nat || negb (bool_decide (is_Some (result !! "id")))
        then inl (NotFoundError "Ticket" ticket_id)
        else inr result
    end.

Definition find_similar_tickets {rt : PyRuntime} (client : glpi)
    (similarity_service : SimilarityService) (env : pool_env)
    (ticket_id : Z) (kwargs : similar_kwargs) : glpi_error + list sim_result :=
  if (ticket_id <=? 0)%Z
  then inl (ValidationError "ticket_id must be positive" "ticket_id")
  else
    match get_ticket client ticket_id with
    | inl e => inl e
    | inr reference =>
        match list_tickets client (default 200%Z (kw_max_items kwargs)) with
        | inl e => inl e
        | inr candidates =>
            inr (find_similar_tickets similarity_service env
                   (similarity_view reference)
                   (map similarity_view
                      (List.filter
                         (fun t => py_ne_int (dict_get_none t "id") ticket_id)
                         candidates))
                   (default 0.3%R (kw_threshold kwargs))
                   (default 10%Z (kw_max_results kwargs)))
        end
    end.

End TicketService.

(** A ticket as GLPI returns it, and a client that knows two tickets. *)
Definition glpi_ticket (id : Z) : ticket :=
  {[ "id" := PyInt id;
     "name" := PyStr (u "Impressora");
     "content" := PyStr (u "Problema com impressora HP") ]}.

Definition sample_glpi : glpi :=
  {| ticket_response := fun id => inr (glpi_ticket id);
     list_tickets := fun _ => inr [glpi_ticket 1; glpi_ticket 2] |}.
(** ** Sanity checks of the embedding *)

Example ex_norm : @normalize_text AsciiRuntime.ascii_runtime (PyStr (u "  HELLO  World  ")) = Ret (u "hello world").
Proof. reflexivity. Qed.
Example ex_match : AsciiRuntime.matching_blocks_size 20 (u "hello world") (u "hello there") = 7.
Proof. reflexivity. Qed.
Example ex_match2 : AsciiRuntime.matching_blocks_size 20 (u "abcab") (u "bcabc") = 4.
Proof. reflexivity. Qed.
Example ex_match3 : AsciiRuntime.matching_blocks_size 20 (u "abxcd") (u "abcd") = 4.
Proof. reflexivity. Qed.
Example ex_kw : @extract_keywords AsciiRuntime.ascii_runtime (PyStr (u "The printer is not working, por favor!")) 3 = Ret (list_to_set [u "printer"; u "not"; u "working"; u "favor"]).
Proof. vm_compute. reflexivity. Qed.
Example ex_lev : levenshtein_dp (u "kitten") (u "sitting") = 3.
Proof. reflexivity. Qed.

(** ** Basic facts: the monad, truthiness, normalisation of strings *)

Lemma truthy_str (s : ustring) : truthy (PyStr s) = negb (is_nil s).
Proof. destruct s; reflexivity. Qed.

Lemma float_geb_true (x y : R) : float_geb x y = true <-> (y <= x)%R.
Proof.
  unfold float_geb. destruct (Rge_dec x y) as [H|H]; split; intros; try easy; try lra.
Qed.

Lemma float_geb_false (x y : R) : float_geb x y = false <-> (x < y)%R.
Proof.
  unfold float_geb. destruct (Rge_dec x y) as [H|H]; split; intros; try easy; try lra.
Qed.

Lemma float_eqb_true (x y : R) : float_eqb x y = true <-> x = y.
Proof. unfold float_eqb. destruct (Req_dec_T x y); split; intros; easy. Qed.

Lemma float_eqb_false (x y : R) : float_eqb x y = false <-> x <> y.
Proof. unfold float_eqb. destruct (Req_dec_T x y); split; intros; easy. Qed.

Section MetricFacts.
Context {rt : PyRuntime}.

Lemma normalize_text_str (s : ustring) :
  normalize_text (PyStr s) = Ret (norm s).
Proof. destruct s; reflexivity. Qed.

Lemma normalize_text_truthy_inv (v : pyval) (s : ustring) :
  truthy v = true -> normalize_text v = Ret s ->
  exists s0, v = PyStr s0 /\ s0 <> [] /\ s = normalize_str s0.
Proof.
  unfold normalize_text. intros Ht. rewrite Ht. simpl.
  destruct v as [|s0|n]; try discriminate.
  intros [= <-]. exists s0. repeat split. intros ->. discriminate.
Qed.

(** *** Jaccard *)

Lemma set_empty_true (s : gset ustring) : set_empty s = true <-> s = ∅.
Proof. unfold set_empty. apply bool_decide_eq_true. Qed.

Lemma set_empty_false (s : gset ustring) : set_empty s = false <-> s <> ∅.
Proof. unfold set_empty. apply bool_decide_eq_false. Qed.

Lemma jaccard_nonempty (A B : gset ustring) :
  A <> ∅ -> B <> ∅ ->
  jaccard_similarity A B = (INR (size (A ∩ B)) / INR (size (A ∪ B)))%R.
Proof.
  intros HA HB. unfold jaccard_similarity.
  rewrite (proj2 (set_empty_false A) HA), (proj2 (set_empty_false B) HB). simpl.
  destruct (Nat.ltb_spec 0 (size (A ∪ B))) as [|Hz]; [reflexivity|].
  assert (size (A ∪ B) = 0) as Hs by lia.
  apply size_empty_iff in Hs.
  assert (size (A ∩ B) = 0) as ->.
  { apply size_empty_iff. set_solver. }
  apply size_empty_iff in Hs as ->. simpl. lra.
Qed.

Lemma jaccard_range (A B : gset ustring) :
  (0 <= jaccard_similarity A B <= 1)%R.
Proof.
  unfold jaccard_similarity.
  destruct (set_empty A && set_empty B); [lra|].
  destruct (set_empty A || set_empty B); [lra|].
  destruct (Nat.ltb_spec 0 (size (A ∪ B))) as [Hpos|]; [|lra].
  assert (size (A ∩ B) <= size (A ∪ B)) as Hle
    by (apply subseteq_size; set_solver).
  apply le_INR in Hle. apply lt_INR in Hpos. simpl in Hpos.
  pose proof (pos_INR (size (A ∩ B))).
  split.
  - apply Rmult_le_pos; [lra|]. left. now apply Rinv_0_lt_compat.
  - apply Rmult_le_reg_r with (INR (size (A ∪ B))); [lra|].
    unfold Rdiv. rewrite Rmult_assoc, Rinv_l by lra. lra.
Qed.

End MetricFacts.

(** C9 (as stated, refuted): the Jaccard similarity of {a, b} and
    {b, c} is not 0.5. *)
Lemma jaccard_ab_bc_not_half :
  jaccard_similarity {[ u "a"; u "b" ]} {[ u "b"; u "c" ]} <> 0.5%R.
Proof.
  rewrite jaccard_nonempty by (now vm_compute).
  replace (size (_ ∩ _)) with 1 by (now vm_compute).
  replace (size (_ ∪ _)) with 3 by (now vm_compute).
  simpl. lra.
Qed.

(** C9 (amended): the Jaccard similarity of two empty sets is 1.0, of a
    non-empty and an empty set 0.0 (either way round), of {a, b} and
    {b, c} one third, and of two non-empty sets A and B it is
    |A ∩ B| / |A ∪ B|. *)
Theorem jaccard_similarity_spec :
  jaccard_similarity ∅ ∅ = 1%R
  /\ (forall A : gset ustring, A <> ∅ ->
        jaccard_similarity A ∅ = 0%R /\ jaccard_similarity ∅ A = 0%R)
  /\ jaccard_similarity {[ u "a"; u "b" ]} {[ u "b"; u "c" ]} = (1 / 3)%R
  /\ (forall A B : gset ustring, A <> ∅ -> B <> ∅ ->
        jaccard_similarity A B = (INR (size (A ∩ B)) / INR (size (A ∪ B)))%R).
Proof.
  split; [reflexivity|]. split; [|split].
  - intros A HA. unfold jaccard_similarity.
    rewrite (proj2 (set_empty_false A) HA). split; reflexivity.
  - rewrite jaccard_nonempty by (now vm_compute).
    replace (size (_ ∩ _)) with 1 by (now vm_compute).
    replace (size (_ ∪ _)) with 3 by (now vm_compute).
    simpl. lra.
  - apply @jaccard_nonempty.
Qed.

(** ** Cosine and sequence similarity *)

Section CosineFacts.
Context {rt : PyRuntime}.

Lemma list_sum_nonzero {A} (f : A -> nat) (l : list A) (x : A) :
  In x l -> 1 <= f x -> 1 <= list_sum (map f l).
Proof.
  induction l as [|y l IH]; simpl; [easy|].
  intros [->|Hin] Hx; [lia|]. specialize (IH Hin Hx). lia.
Qed.

Lemma zip_with_map_self {A} (f : A -> nat) (l : list A) :
  zip_with Nat.mul (map f l) (map f l) = map (fun a => a * a) (map f l).
Proof. induction l; simpl; congruence. Qed.

Lemma list_count_head (w : ustring) (ws : list ustring) :
  1 <= list_count w (w :: ws).
Proof.
  unfold list_count. simpl. rewrite bool_decide_true by reflexivity.
  simpl. lia.
Qed.

Lemma ratio_range_lower (a b : ustring) : (0 <= ratio a b)%R.
Proof.
  unfold ratio. destruct (Nat.ltb_spec 0 (length a + length b)) as [Hpos|]; [|lra].
  apply lt_INR in Hpos. simpl in Hpos.
  pose proof (pos_INR (matching_size a b)).
  apply Rmult_le_pos; [lra|]. left. now apply Rinv_0_lt_compat.
Qed.

Lemma sequence_similarity_nonneg (text1 text2 : pyval) (v : R) :
  sequence_similarity text1 text2 = Ret v -> (0 <= v)%R.
Proof.
  unfold sequence_similarity.
  destruct (negb (truthy text1) || negb (truthy text2)).
  - intros [= <-]. lra.
  - destruct (normalize_text text1); simpl; [|discriminate].
    destruct (normalize_text text2); simpl; [|discriminate].
    intros [= <-]. apply ratio_range_lower.
Qed.

Lemma cosine_similarity_nonneg (text1 text2 : pyval) (v : R) :
  cosine_similarity text1 text2 = Ret v -> (0 <= v)%R.
Proof.
  unfold cosine_similarity.
  destruct (negb (truthy text1) || negb (truthy text2)).
  { intros [= <-]. lra. }
  destruct (normalize_text text1) as [n1|]; simpl; [|discriminate].
  destruct (normalize_text text2) as [n2|]; simpl; [|discriminate].
  destruct (is_nil (str_split n1) || is_nil (str_split n2)).
  { intros [= <-]. lra. }
  match goal with
  | |- context [float_eqb (sqrt ?x) 0 || float_eqb (sqrt ?y) 0] =>
      pose proof (sqrt_pos x); pose proof (sqrt_pos y);
      destruct (float_eqb (sqrt x) 0) eqn:E1;
      destruct (float_eqb (sqrt y) 0) eqn:E2;
      simpl; try (intros [= <-]; lra)
  end.
  apply float_eqb_false in E1, E2. intros [= <-].
  apply Rmult_le_pos; [apply pos_INR|].
  left. apply Rinv_0_lt_compat. apply Rmult_lt_0_compat; lra.
Qed.

Lemma cosine_similarity_self (t : ustring) :
  str_split (norm t) <> [] ->
  cosine_similarity (PyStr t) (PyStr t) = Ret 1%R.
Proof.
  intros Hw. unfold cosine_similarity.
  assert (truthy (PyStr t) = true) as ->.
  { destruct t; [|reflexivity]. now elim Hw. }
  cbn [negb orb]. rewrite normalize_text_str. cbn [mbind exc_bind].
  destruct (str_split (norm t)) as [|w ws] eqn:Ews; [easy|]. cbn [is_nil orb].
  set (words := w :: ws).
  set (vocab := elements (list_to_set (words ++ words) : gset ustring)).
  cbv zeta.
  rewrite zip_with_map_self.
  set (q := list_sum (map (fun a => a * a) (map (fun word => list_count word words) vocab))).
  assert (1 <= q) as Hq.
  { unfold q. rewrite map_map. apply list_sum_nonzero with (x := w).
    - apply list_elem_of_In. apply elem_of_elements.
      apply elem_of_list_to_set. subst words. simpl. left.
    - pose proof (list_count_head w ws). subst words. nia. }
  apply le_INR in Hq. simpl in Hq.
  assert (0 < sqrt (INR q))%R as Hs by (apply sqrt_lt_R0; lra).
  rewrite (proj2 (float_eqb_false (sqrt (INR q)) 0)) by lra. simpl.
  f_equal. rewrite sqrt_sqrt by lra. field. lra.
Qed.

End CosineFacts.

(** C6 (as stated, refuted): the non-empty text "!!!" has no word left
    after normalisation, and its cosine similarity to itself is 0.0,
    which is not within 1e-6 of 1.0. *)
Lemma cosine_self_punctuation :
  let t := PyStr (u "!!!") in
  truthy t = true
  /\ ~ (exists v, cosine_similarity (rt := AsciiRuntime.ascii_runtime) t t = Ret v
                  /\ (Rabs (v - 1) <= 1e-6)%R).
Proof.
  split; [reflexivity|]. intros (v & Hv & Hclose).
  assert (v = 0%R) as -> by (injection Hv as <-; reflexivity).
  replace (0 - 1)%R with (- (1))%R in Hclose by lra.
  rewrite Rabs_Ropp, Rabs_R1 in Hclose. lra.
Qed.

(** C6 (amended): for every text whose normalised form contains at
    least one word, the cosine similarity of the text to itself is 1.0
    (exactly so in real arithmetic, hence within any tolerance). *)
Theorem cosine_similarity_self_is_one {rt : PyRuntime} (t : ustring) :
  str_split (norm t) <> [] ->
  exists v, cosine_similarity (PyStr t) (PyStr t) = Ret v
            /\ (Rabs (v - 1) <= 1e-6)%R.
Proof.
  intros Hw. exists 1%R. split; [now apply cosine_similarity_self|].
  replace (1 - 1)%R with 0%R by lra. rewrite Rabs_R0. lra.
Qed.

Lemma cosine_similarity_self_witness :
  exists v, cosine_similarity (rt := AsciiRuntime.ascii_runtime)
              (PyStr (u "hello world test")) (PyStr (u "hello world test")) = Ret v
            /\ (Rabs (v - 1) <= 1e-6)%R.
Proof.
  apply (cosine_similarity_self_is_one (rt := AsciiRuntime.ascii_runtime)
           (u "hello world test")).
  vm_compute. discriminate.
Defined.

(** ** The combined score *)

Section CombinedFacts.
Context {rt : PyRuntime}.

Lemma sequence_similarity_str (s1 s2 : ustring) :
  sequence_similarity (PyStr s1) (PyStr s2)
  = Ret (if is_nil s1 || is_nil s2 then 0%R else ratio (norm s1) (norm s2)).
Proof.
  unfold sequence_similarity. rewrite !truthy_str, !negb_involutive.
  destruct (is_nil s1 || is_nil s2); [reflexivity|].
  now rewrite !normalize_text_str.
Qed.

Lemma cosine_similarity_str (s1 s2 : ustring) :
  exists v, cosine_similarity (PyStr s1) (PyStr s2) = Ret v.
Proof.
  unfold cosine_similarity. rewrite !normalize_text_str. cbn [mbind exc_bind].
  destruct (_ || _); [eauto|]. destruct (_ || _); [eauto|].
  cbv zeta. destruct (_ || _); eauto.
Qed.

Lemma extract_keywords_str (s : ustring) (min_length : Z) :
  exists k, extract_keywords (PyStr s) min_length = Ret k.
Proof.
  unfold extract_keywords. rewrite normalize_text_str. cbn [mbind exc_bind].
  destruct (negb _); eauto.
Qed.

Lemma combined_similarity_range (text1 text2 title1 title2 : pyval) (v : R) :
  combined_similarity text1 text2 title1 title2 = Ret v -> (0 <= v <= 1)%R.
Proof.
  unfold combined_similarity.
  destruct (negb (truthy text1) || negb (truthy text2)).
  { intros [= <-]. lra. }
  destruct (sequence_similarity text1 text2) as [sq|] eqn:Esq; [|discriminate].
  destruct (cosine_similarity text1 text2) as [cs|] eqn:Ecs; [|discriminate].
  destruct (extract_keywords text1 3) as [k1|]; [|discriminate].
  destruct (extract_keywords text2 3) as [k2|]; [|discriminate].
  cbn [mbind exc_bind].
  destruct (if truthy title1 && truthy title2
            then sequence_similarity title1 title2 else Ret 0%R)
    as [ts|] eqn:Ets; [|discriminate].
  cbn [mbind exc_bind]. intros [= <-].
  apply sequence_similarity_nonneg in Esq. apply cosine_similarity_nonneg in Ecs.
  assert (0 <= ts)%R.
  { destruct (truthy title1 && truthy title2).
    - now apply sequence_similarity_nonneg in Ets.
    - injection Ets as <-. lra. }
  pose proof (jaccard_range k1 k2) as [Hj _].
  unfold weight_sequence, weight_cosine, weight_jaccard, weight_title_bonus.
  split.
  - apply Rmin_glb; [lra|]. nra.
  - apply Rmin_l.
Qed.

Lemma combined_similarity_formula (text1 text2 title1 title2 : ustring) :
  text1 <> [] -> text2 <> [] ->
  exists seq_sim cos_sim keywords1 keywords2 title_sim,
    sequence_similarity (PyStr text1) (PyStr text2) = Ret seq_sim
    /\ cosine_similarity (PyStr text1) (PyStr text2) = Ret cos_sim
    /\ extract_keywords (PyStr text1) 3 = Ret keywords1
    /\ extract_keywords (PyStr text2) 3 = Ret keywords2
    /\ (if is_nil title1 || is_nil title2
        then title_sim = 0%R
        else sequence_similarity (PyStr title1) (PyStr title2) = Ret title_sim)
    /\ combined_similarity (PyStr text1) (PyStr text2)
                           (PyStr title1) (PyStr title2)
       = Ret (Rmin 1 (0.30 * seq_sim + 0.30 * cos_sim
                      + 0.25 * jaccard_similarity keywords1 keywords2
                      + 0.15 * title_sim))%R.
Proof.
  intros H1 H2.
  destruct (cosine_similarity_str text1 text2) as [cs Hcs].
  destruct (extract_keywords_str text1 3) as [k1 Hk1].
  destruct (extract_keywords_str text2 3) as [k2 Hk2].
  exists (ratio (norm text1) (norm text2)), cs, k1, k2,
    (if is_nil title1 || is_nil title2 then 0%R
     else ratio (norm title1) (norm title2)).
  assert (is_nil text1 || is_nil text2 = false) as Hnil
    by (destruct text1, text2; easy).
  assert (sequence_similarity (PyStr text1) (PyStr text2)
          = Ret (ratio (norm text1) (norm text2))) as Hsq
    by (now rewrite sequence_similarity_str, Hnil).
  repeat split; try assumption.
  - destruct (is_nil title1 || is_nil title2) eqn:Et; [reflexivity|].
    now rewrite sequence_similarity_str, Et.
  - unfold combined_similarity.
    rewrite !truthy_str, <- negb_orb, !negb_involutive, Hnil.
    rewrite Hsq, Hcs, Hk1, Hk2. cbn [mbind exc_bind].
    rewrite sequence_similarity_str.
    destruct (is_nil title1 || is_nil title2); reflexivity.
Qed.

End CombinedFacts.

(** C2: [combined_similarity] returns 0.0 as soon as one of the two texts
    is empty, whatever the titles are (they are not looked at: even a
    title that is not a string does not matter); on two non-empty texts
    it returns the minimum of 1.0 and the weighted sum
    0.30*sequence + 0.30*cosine + 0.25*jaccard(keywords) + 0.15*title
    similarity, where the title similarity is the sequence similarity of
    the titles when both are non-empty and 0.0 otherwise; and whatever it
    returns lies between 0 and 1. *)
Theorem combined_similarity_spec {rt : PyRuntime} :
  (forall text1 text2 title1 title2 : pyval,
      truthy text1 = false \/ truthy text2 = false ->
      combined_similarity text1 text2 title1 title2 = Ret 0%R)
  /\ (forall text1 text2 title1 title2 : ustring,
        text1 <> [] -> text2 <> [] ->
        exists seq_sim cos_sim keywords1 keywords2 title_sim,
          sequence_similarity (PyStr text1) (PyStr text2) = Ret seq_sim
          /\ cosine_similarity (PyStr text1) (PyStr text2) = Ret cos_sim
          /\ extract_keywords (PyStr text1) 3 = Ret keywords1
          /\ extract_keywords (PyStr text2) 3 = Ret keywords2
          /\ (if is_nil title1 || is_nil title2
              then title_sim = 0%R
              else sequence_similarity (PyStr title1) (PyStr title2) = Ret title_sim)
          /\ combined_similarity (PyStr text1) (PyStr text2)
                                 (PyStr title1) (PyStr title2)
             = Ret (Rmin 1 (0.30 * seq_sim + 0.30 * cos_sim
                            + 0.25 * jaccard_similarity keywords1 keywords2
                            + 0.15 * title_sim))%R)
  /\ (forall (text1 text2 title1 title2 : pyval) (v : R),
        combined_similarity text1 text2 title1 title2 = Ret v ->
        (0 <= v <= 1)%R).
Proof.
  split; [|split].
  - intros text1 text2 title1 title2 H. unfold combined_similarity.
    destruct H as [-> | ->]; simpl; [reflexivity|].
    now rewrite orb_true_r.
  - intros text1 text2 title1 title2. apply combined_similarity_formula.
  - intros. eapply combined_similarity_range; eassumption.
Qed.

Lemma combined_similarity_spec_witness :
  exists v,
    combined_similarity (rt := AsciiRuntime.ascii_runtime)
      (PyStr (u "problema com impressora")) (PyStr (u "impressora com problema"))
      (PyStr (u "Impressora")) (PyStr (u "Impressora HP")) = Ret v
    /\ (0 <= v <= 1)%R.
Proof.
  destruct (proj1 (proj2 (combined_similarity_spec (rt := AsciiRuntime.ascii_runtime)))
              (u "problema com impressora") (u "impressora com problema")
              (u "Impressora") (u "Impressora HP"))
    as (sq & cs & k1 & k2 & ts & _ & _ & _ & _ & _ & Hv); [easy | easy |].
  eexists. split; [exact Hv|].
  exact (proj2 (proj2 (combined_similarity_spec (rt := AsciiRuntime.ascii_runtime)))
           _ _ _ _ _ Hv).
Defined.

(** ** Levenshtein distance *)

Lemma lev_nil_l (t : ustring) : lev [] t = length t.
Proof. reflexivity. Qed.

Lemma lev_nil_r (s : ustring) : lev s [] = length s.
Proof. destruct s; reflexivity. Qed.

Lemma lev_cons (a b : N) (s t : ustring) :
  lev (a :: s) (b :: t)
  = if (a =? b)%N then lev s t
    else 1 + Nat.min (lev s (b :: t)) (Nat.min (lev (a :: s) t) (lev s t)).
Proof. reflexivity. Qed.

Lemma edits_lev (s t : ustring) : edits s t (lev s t).
Proof.
  revert t. induction s as [|a s IHs]; intros t.
  - rewrite lev_nil_l. induction t; simpl; constructor; assumption.
  - induction t as [|b t IHt].
    + rewrite lev_nil_r. simpl. apply edits_delete.
      specialize (IHs []). now rewrite lev_nil_r in IHs.
    + rewrite lev_cons. destruct (N.eqb_spec a b) as [->|Hne].
      * apply edits_keep, IHs.
      * destruct (Nat.min_spec (lev s (b :: t)) (Nat.min (lev (a :: s) t) (lev s t)))
          as [[_ ->]|[_ ->]].
        -- apply edits_delete, IHs.
        -- destruct (Nat.min_spec (lev (a :: s) t) (lev s t)) as [[_ ->]|[_ ->]].
           ++ apply edits_insert, IHt.
           ++ apply edits_subst, IHs.
Qed.

(** Dropping the first character of either string costs at most one
    more edit. *)
Lemma edits_drop_head_r (s t : ustring) (b : N) (n : nat) :
  edits s (b :: t) n -> exists n', n' <= S n /\ edits s t n'.
Proof.
  remember (b :: t) as bt eqn:E. intros H. revert b t E.
  induction H as [|c s t0 n H IH|a b0 s t0 n H IH|a s t0 n H IH|b0 s t0 n H IH];
    intros b t E.
  - discriminate.
  - injection E as -> ->. exists (S n). split; [lia|]. now apply edits_delete.
  - injection E as -> ->. exists (S n). split; [lia|]. now apply edits_delete.
  - destruct (IH b t E) as (n' & Hle & Hn'). exists (S n'). split; [lia|].
    now apply edits_delete.
  - injection E as -> ->. exists n. split; [lia|]. assumption.
Qed.

Lemma edits_drop_head_l (s t : ustring) (a : N) (n : nat) :
  edits (a :: s) t n -> exists n', n' <= S n /\ edits s t n'.
Proof.
  remember (a :: s) as as_ eqn:E. intros H. revert a s E.
  induction H as [|c s0 t n H IH|a0 b s0 t n H IH|a0 s0 t n H IH|b s0 t n H IH];
    intros a s E.
  - discriminate.
  - injection E as -> ->. exists (S n). split; [lia|]. now apply edits_insert.
  - injection E as -> ->. exists (S n). split; [lia|]. now apply edits_insert.
  - injection E as -> ->. exists n. split; [lia|]. assumption.
  - destruct (IH a s E) as (n' & Hle & Hn'). exists (S n'). split; [lia|].
    now apply edits_insert.
Qed.

Lemma lev_minimal_bounded (k : nat) :
  forall s t n, length s + length t <= k -> edits s t n -> lev s t <= n.
Proof.
  induction k as [|k IH]; intros s t n Hk H.
  - destruct s, t; simpl in Hk; try lia. inversion H; subst. simpl. lia.
  - inversion H as [|c s' t' n' H'|a b s' t' n' H'|a s' n0 n' H'|b n0 t' n' H']; subst.
    + simpl. lia.
    + simpl in Hk. rewrite lev_cons, N.eqb_refl. apply IH; [lia|assumption].
    + simpl in Hk. assert (lev s' t' <= n') by (apply IH; [lia|assumption]).
      rewrite lev_cons. destruct (a =? b)%N; lia.
    + simpl in Hk. assert (lev s' t <= n') as Hd by (apply IH; [lia|assumption]).
      destruct t as [|b t'].
      * rewrite lev_nil_r in *. simpl. lia.
      * rewrite lev_cons. destruct (a =? b)%N; [|lia].
        destruct (edits_drop_head_r s' t' b _ (edits_lev s' (b :: t')))
          as (m & Hm & Hed).
        assert (lev s' t' <= m) by (apply IH; [simpl in Hk; lia|assumption]).
        lia.
    + simpl in Hk. assert (lev s t' <= n') as Hd by (apply IH; [lia|assumption]).
      destruct s as [|a s'].
      * simpl in *. lia.
      * rewrite lev_cons. destruct (a =? b)%N; [|lia].
        destruct (edits_drop_head_l s' t' a _ (edits_lev (a :: s') t'))
          as (m & Hm & Hed).
        assert (lev s' t' <= m) by (apply IH; [simpl in Hk; lia|assumption]).
        lia.
Qed.

Lemma lev_minimal (s t : ustring) (n : nat) : edits s t n -> lev s t <= n.
Proof. apply lev_minimal_bounded with (k := length s + length t). lia. Qed.

Lemma lev_edit_distance (s t : ustring) : edit_distance s t (lev s t).
Proof. split; [apply edits_lev | apply lev_minimal]. Qed.

Lemma edit_distance_unique (s t : ustring) (d1 d2 : nat) :
  edit_distance s t d1 -> edit_distance s t d2 -> d1 = d2.
Proof.
  intros [H1 M1] [H2 M2]. apply Nat.le_antisymm; [apply M1 | apply M2]; assumption.
Qed.

(** Scripts can be read from the right end as well. *)
Lemma edits_snoc_keep (s t : ustring) (n : nat) (c : N) :
  edits s t n -> edits (s ++ [c]) (t ++ [c]) n.
Proof.
  induction 1; simpl; try (constructor; assumption).
  apply edits_keep, edits_nil.
Qed.

Lemma edits_snoc_subst (s t : ustring) (n : nat) (a b : N) :
  edits s t n -> edits (s ++ [a]) (t ++ [b]) (S n).
Proof.
  induction 1; simpl; try (constructor; assumption).
  apply edits_subst, edits_nil.
Qed.

Lemma edits_snoc_delete (s t : ustring) (n : nat) (a : N) :
  edits s t n -> edits (s ++ [a]) t (S n).
Proof.
  induction 1; simpl; try (constructor; assumption).
  apply edits_delete, edits_nil.
Qed.

Lemma edits_snoc_insert (s t : ustring) (n : nat) (b : N) :
  edits s t n -> edits s (t ++ [b]) (S n).
Proof.
  induction 1; simpl; try (constructor; assumption).
  apply edits_insert, edits_nil.
Qed.

Lemma edits_rev (s t : ustring) (n : nat) :
  edits s t n -> edits (rev s) (rev t) n.
Proof.
  induction 1; simpl.
  - constructor.
  - now apply edits_snoc_keep.
  - now apply edits_snoc_subst.
  - now apply edits_snoc_delete.
  - now apply edits_snoc_insert.
Qed.

Lemma lev_rev (s t : ustring) : lev (rev s) (rev t) = lev s t.
Proof.
  apply Nat.le_antisymm.
  - apply lev_minimal, edits_rev, edits_lev.
  - apply lev_minimal.
    pose proof (edits_rev _ _ _ (edits_lev (rev s) (rev t))) as H.
    now rewrite !rev_involutive in H.
Qed.

(** *** The distance matrix computes the edit distance *)

Lemma fold_left_seq_ind {St : Type} (P : nat -> St -> Prop) (f : St -> nat -> St)
    (len : nat) :
  forall (start : nat) (s0 : St),
    P start s0 ->
    (forall k s, start <= k < start + len -> P k s -> P (1 + k) (f s k)) ->
    P (start + len) (fold_left f (seq start len) s0).
Proof.
  induction len as [|len IH]; intros start s0 H0 Hstep; simpl.
  - now rewrite Nat.add_0_r.
  - replace (start + S len) with (S start + len) by lia.
    apply IH.
    + apply (Hstep start s0); [lia|assumption].
    + intros k s Hk. apply Hstep. lia.
Qed.

Lemma nth_repeat_lt {A} (x d : A) (k i : nat) :
  i < k -> nth i (repeat x k) d = x.
Proof.
  revert i. induction k as [|k IH]; intros [|i] Hi; simpl; try lia; [reflexivity|].
  apply IH. lia.
Qed.

Lemma firstn_snoc_nth {A} (d : A) (l : list A) (i : nat) :
  i < length l -> firstn (S i) l = firstn i l ++ [nth i l d].
Proof.
  revert i. induction l as [|x l IH]; intros [|i] Hi; simpl in *; try lia;
    [reflexivity|].
  f_equal. apply IH. lia.
Qed.

Lemma mget_mset_eq (m n : nat) (dp : list (list nat)) (i j v : nat) :
  dp_shape m n dp -> i <= m -> j <= n -> mget (mset dp i j v) i j = v.
Proof.
  intros [Hlen Hrows] Hi Hj. unfold mget, mset.
  rewrite (nth_lookup _ i), list_lookup_insert_eq by lia. simpl.
  rewrite nth_lookup, list_lookup_insert_eq; [reflexivity|].
  rewrite Hrows by assumption. lia.
Qed.

Lemma mget_mset_ne (dp : list (list nat)) (i j v i' j' : nat) :
  (i', j') <> (i, j) -> mget (mset dp i j v) i' j' = mget dp i' j'.
Proof.
  intros Hne. unfold mget, mset.
  destruct (decide (i' = i)) as [->|Hi].
  - assert (j' <> j) by congruence.
    destruct (decide (i < length dp)) as [Hlt|Hge].
    + rewrite (nth_lookup _ i), list_lookup_insert_eq by assumption. simpl.
      rewrite !(nth_lookup _ j'), list_lookup_insert_ne by congruence.
      reflexivity.
    + rewrite list_insert_ge by lia. reflexivity.
  - rewrite !(nth_lookup _ i'), list_lookup_insert_ne by congruence.
    reflexivity.
Qed.

Lemma mset_shape (m n : nat) (dp : list (list nat)) (i j v : nat) :
  dp_shape m n dp -> dp_shape m n (mset dp i j v).
Proof.
  intros [Hlen Hrows]. unfold mset. split.
  - now rewrite length_insert.
  - intros i' Hi'. destruct (decide (i' = i)) as [->|Hne].
    + rewrite nth_lookup, list_lookup_insert_eq by lia. simpl.
      rewrite length_insert. now apply Hrows.
    + rewrite nth_lookup, list_lookup_insert_ne by congruence.
      rewrite <- nth_lookup. now apply Hrows.
Qed.

Section Matrix.
Variables text1 text2 : ustring.
Let m := length text1.
Let n := length text2.

(** The value the cell [dp[i][j]] must hold: the distance between the
    first [i] characters of [text1] and the first [j] of [text2]. *)
Let cell (i j : nat) : nat := lev (rev (firstn i text1)) (rev (firstn j text2)).

Lemma cell_row0 (j : nat) : j <= n -> cell 0 j = j.
Proof.
  intros Hj. unfold cell. simpl. rewrite length_rev, firstn_length_le; [reflexivity|].
  exact Hj.
Qed.

Lemma cell_col0 (i : nat) : i <= m -> cell i 0 = i.
Proof.
  intros Hi. unfold cell. simpl. rewrite lev_nil_r, length_rev, firstn_length_le;
    [reflexivity|]. exact Hi.
Qed.

Lemma cell_step (i j : nat) :
  1 <= i <= m -> 1 <= j <= n ->
  cell i j
  = if (nth (i - 1) text1 0 =? nth (j - 1) text2 0)%N
    then cell (i - 1) (j - 1)
    else 1 + Nat.min (cell (i - 1) j)
               (Nat.min (cell i (j - 1)) (cell (i - 1) (j - 1))).
Proof.
  intros Hi Hj. unfold cell.
  destruct i as [|i]; [lia|]. destruct j as [|j]; [lia|].
  replace (S i - 1) with i by lia. replace (S j - 1) with j by lia.
  rewrite (firstn_snoc_nth 0%N text1 i) by (fold m; lia).
  rewrite (firstn_snoc_nth 0%N text2 j) by (fold n; lia).
  rewrite !rev_app_distr. simpl. reflexivity.
Qed.

(** The cells filled when the loops reach row [i], column [j]. *)
Let filled (i j : nat) (dp : list (list nat)) : Prop :=
  dp_shape m n dp
  /\ forall i' j', i' <= m -> j' <= n ->
       i' = 0 \/ j' = 0 \/ i' < i \/ (i' = i /\ j' < j) ->
       mget dp i' j' = cell i' j'.

Lemma levenshtein_dp_lev : levenshtein_dp text1 text2 = lev text1 text2.
Proof.
  unfold levenshtein_dp. fold m n.
  set (dp0 := repeat (repeat 0 (n + 1)) (m + 1)).
  assert (dp_shape m n dp0) as H0.
  { split; [apply repeat_length|]. intros i Hi. unfold dp0.
    rewrite nth_repeat_lt by lia. apply repeat_length. }
  set (dp1 := fold_left (fun dp i => mset dp i 0 i) (seq 0 (m + 1)) dp0).
  assert (dp_shape m n dp1 /\ forall i, i < m + 1 -> mget dp1 i 0 = i) as [H1 H1c].
  { apply (fold_left_seq_ind
             (fun k dp => dp_shape m n dp /\ forall i, i < k -> mget dp i 0 = i)
             _ (m + 1) 0 dp0).
    - split; [assumption|]. intros; lia.
    - intros k dp Hk [Hs Hc]. split; [now apply mset_shape|].
      intros i Hi. destruct (decide (i = k)) as [->|Hne].
      + apply (mget_mset_eq m n); [assumption|lia|lia].
      + rewrite mget_mset_ne by congruence. apply Hc. lia. }
  set (dp2 := fold_left (fun dp j => mset dp 0 j j) (seq 0 (n + 1)) dp1).
  assert (filled 1 1 dp2) as H2.
  { assert (dp_shape m n dp2
            /\ (forall i, i < m + 1 -> mget dp2 i 0 = i)
            /\ forall j, j < n + 1 -> mget dp2 0 j = j) as (Hs & Hc & Hr).
    { apply (fold_left_seq_ind
               (fun k dp => dp_shape m n dp
                            /\ (forall i, i < m + 1 -> mget dp i 0 = i)
                            /\ forall j, j < k -> mget dp 0 j = j)
               _ (n + 1) 0 dp1).
      - repeat split; try apply H1; try assumption. intros; lia.
      - intros k dp Hk (Hs & Hc & Hr). split; [now apply mset_shape|]. split.
        + intros i Hi. destruct (decide ((i, 0) = (0, k))) as [E|Hne].
          * injection E as -> <-. apply (mget_mset_eq m n); [assumption|lia|lia].
          * rewrite mget_mset_ne by assumption. now apply Hc.
        + intros j Hj. destruct (decide (j = k)) as [->|Hne].
          * apply (mget_mset_eq m n); [assumption|lia|lia].
          * rewrite mget_mset_ne by congruence. apply Hr. lia. }
    split; [assumption|]. intros i' j' Hi' Hj' Hcase.
    destruct (decide (i' = 0)) as [->|Hi0].
    - rewrite cell_row0 by assumption. apply Hr. lia.
    - assert (j' = 0) as -> by lia.
      rewrite cell_col0 by assumption. apply Hc. lia. }
  match goal with
  | |- mget (fold_left ?outer (seq 1 m) dp2) m n = _ => set (body := outer)
  end.
  assert (filled (1 + m) 1 (fold_left body (seq 1 m) dp2)) as [_ Hfin].
  { apply (fold_left_seq_ind (fun i dp => filled i 1 dp) body m 1 dp2);
      [assumption|].
    intros i dp Hi Hrow. unfold body.
    assert (filled i (1 + n)
              (fold_left
                 (fun dp j =>
                    if (nth (i - 1) text1 0 =? nth (j - 1) text2 0)%N
                    then mset dp i j (mget dp (i - 1) (j - 1))
                    else mset dp i j
                           (1 + Nat.min (mget dp (i - 1) j)
                                  (Nat.min (mget dp i (j - 1))
                                           (mget dp (i - 1) (j - 1)))))
                 (seq 1 n) dp)) as [Hs Hc].
    { apply (fold_left_seq_ind (fun j dp => filled i j dp) _ n 1 dp);
        [assumption|].
      intros j dpj Hj [Hs Hc].
      assert (mget dpj (i - 1) (j - 1) = cell (i - 1) (j - 1)) as Ed
        by (apply Hc; lia).
      assert (mget dpj (i - 1) j = cell (i - 1) j) as Eu by (apply Hc; lia).
      assert (mget dpj i (j - 1) = cell i (j - 1)) as El by (apply Hc; lia).
      pose proof (cell_step i j ltac:(lia) ltac:(lia)) as Hstep.
      rewrite Ed, Eu, El.
      assert (forall v, v = cell i j -> filled i (1 + j) (mset dpj i j v)) as Hset.
      { intros v ->. split; [now apply mset_shape|].
        intros i' j' Hi' Hj' Hcase.
        destruct (decide ((i', j') = (i, j))) as [E|Hne].
        - injection E as -> ->. apply (mget_mset_eq m n); [assumption|lia|lia].
        - rewrite mget_mset_ne by assumption. apply Hc; try assumption.
          destruct (decide (i' = i)) as [->|]; [|lia].
          destruct (decide (j' = j)) as [->|]; [congruence|lia]. }
      destruct (_ =? _)%N; apply Hset; now rewrite Hstep. }
    split; [assumption|]. intros i' j' Hi' Hj' Hcase. apply Hc; try assumption. lia. }
  rewrite Hfin by lia. unfold cell, m, n.
  rewrite !firstn_all. apply lev_rev.
Qed.

End Matrix.

Lemma levenshtein_dp_edit_distance (s t : ustring) :
  edit_distance s t (levenshtein_dp s t).
Proof. rewrite levenshtein_dp_lev. apply lev_edit_distance. Qed.

(** *** Levenshtein similarity *)

Lemma levenshtein_similarity_str {rt : PyRuntime} (t1 t2 : ustring) :
  t1 <> [] -> t2 <> [] ->
  levenshtein_similarity (PyStr t1) (PyStr t2)
  = Ret (1 - INR (levenshtein_dp (norm t1) (norm t2))
             / INR (Nat.max (length t1) (length t2)))%R.
Proof.
  intros H1 H2. unfold levenshtein_similarity, levenshtein_distance.
  rewrite !truthy_str.
  assert (is_nil t1 = false) as -> by (now destruct t1).
  assert (is_nil t2 = false) as -> by (now destruct t2).
  cbn [negb andb orb]. rewrite !normalize_text_str. cbn [mbind exc_bind py_len].
  destruct (Nat.ltb_spec 0 (Nat.max (length t1) (length t2))) as [|Hz];
    [reflexivity|].
  destruct t1; [easy|]. simpl in Hz. lia.
Qed.

(** C4: the code misses the claim on "a!!!" and "b". The normalised
    texts are "a" and "b", at edit distance 1 and both of length 1, so
    the claim gives 1 - 1/1 = 0.0; [levenshtein_similarity] divides the
    distance of the normalised texts by the length of the longer text
    as given, 4, and returns 1 - 1/4. *)
Theorem levenshtein_similarity_raw_length_divergence :
  let rt := AsciiRuntime.ascii_runtime in
  let text1 := u "a!!!" in
  let text2 := u "b" in
  levenshtein_similarity (PyStr text1) (PyStr text2) = Ret (1 - 1 / 4)%R
  /\ edit_distance (norm text1) (norm text2) 1
  /\ Nat.max (length (norm text1)) (length (norm text2)) = 1
  /\ Nat.max (length text1) (length text2) = 4
  /\ (1 - 1 / 4 <> 1 - INR 1 / INR 1)%R.
Proof.
  intros rt text1 text2. split; [|split; [|split; [|split]]].
  - rewrite levenshtein_similarity_str by (vm_compute; discriminate).
    change (levenshtein_dp (norm text1) (norm text2)) with 1.
    change (Nat.max (length text1) (length text2)) with 4.
    f_equal. simpl. lra.
  - exact (levenshtein_dp_edit_distance (u "a") (u "b")).
  - reflexivity.
  - reflexivity.
  - simpl. lra.
Qed.

(** What the code computes in general: on two empty texts 1.0, on an
    empty and a non-empty text 0.0, and on two non-empty texts
    1 - d / max(len(text1), len(text2)), where d is the classic
    unit-cost edit distance of the two normalised texts while the
    lengths are those of the texts as given. *)
Lemma levenshtein_similarity_computes {rt : PyRuntime} :
  levenshtein_similarity (PyStr []) (PyStr []) = Ret 1%R
  /\ (forall t : ustring, t <> [] ->
        levenshtein_similarity (PyStr t) (PyStr []) = Ret 0%R
        /\ levenshtein_similarity (PyStr []) (PyStr t) = Ret 0%R)
  /\ (forall text1 text2 : ustring, text1 <> [] -> text2 <> [] ->
        exists d,
          edit_distance (norm text1) (norm text2) d
          /\ levenshtein_similarity (PyStr text1) (PyStr text2)
             = Ret (1 - INR d / INR (Nat.max (length text1) (length text2)))%R).
Proof.
  split; [reflexivity|]. split.
  - intros [|c t] Ht; [easy|]. split; reflexivity.
  - intros text1 text2 H1 H2. exists (levenshtein_dp (norm text1) (norm text2)).
    split; [apply levenshtein_dp_edit_distance|].
    now apply levenshtein_similarity_str.
Qed.


(** ** Normalisation *)

Section NormalizeFacts.
Context {rt : PyRuntime}.

Lemma lstrip_suffix (l : ustring) : exists pre, l = pre ++ lstrip l.
Proof.
  induction l as [|c l [pre IH]]; simpl.
  - now exists [].
  - destruct (re_space c); [|now exists []].
    exists (c :: pre). simpl. congruence.
Qed.

Lemma lstrip_head (l : ustring) (c : N) :
  head (lstrip l) = Some c -> re_space c = false.
Proof.
  induction l as [|x l IH]; simpl; [discriminate|].
  destruct (re_space x) eqn:E; [assumption|].
  simpl. intros [= <-]. assumption.
Qed.

Lemma lstrip_fixed (l : ustring) :
  (forall c, head l = Some c -> re_space c = false) -> lstrip l = l.
Proof.
  destruct l as [|c l]; simpl; [reflexivity|].
  intros H. now rewrite (H c eq_refl).
Qed.

Lemma rstrip_prefix (l : ustring) : exists suf, l = rstrip l ++ suf.
Proof.
  unfold rstrip. destruct (lstrip_suffix (rev l)) as [pre E].
  exists (rev pre). rewrite <- rev_app_distr, <- E. now rewrite rev_involutive.
Qed.

Lemma head_rev_last {A} (l : list A) : head (rev l) = last l.
Proof.
  induction l as [|x l _] using rev_ind; [reflexivity|].
  rewrite rev_app_distr, last_snoc. reflexivity.
Qed.

Lemma rstrip_last (l : ustring) (c : N) :
  last (rstrip l) = Some c -> re_space c = false.
Proof.
  unfold rstrip. rewrite <- head_rev_last, rev_involutive. apply lstrip_head.
Qed.

Lemma rstrip_fixed (l : ustring) :
  (forall c, last l = Some c -> re_space c = false) -> rstrip l = l.
Proof.
  intros H. unfold rstrip. rewrite lstrip_fixed; [apply rev_involutive|].
  intros c. rewrite head_rev_last. apply H.
Qed.

Lemma strip_no_outer_whitespace (l : ustring) : no_outer_whitespace (strip l).
Proof.
  unfold strip. split; [|apply rstrip_last].
  intros c Hc. destruct (rstrip_prefix (lstrip l)) as [suf E].
  destruct (rstrip (lstrip l)) as [|x r]; [discriminate|].
  injection Hc as ->. apply (lstrip_head l c). rewrite E. reflexivity.
Qed.

Lemma strip_fixed (l : ustring) : no_outer_whitespace l -> strip l = l.
Proof.
  intros [Hh Hl]. unfold strip. rewrite (lstrip_fixed l Hh). now apply rstrip_fixed.
Qed.

Lemma In_strip (l : ustring) (c : N) : In c (strip l) -> In c l.
Proof.
  unfold strip. intros H.
  destruct (rstrip_prefix (lstrip l)) as [suf E].
  destruct (lstrip_suffix l) as [pre E'].
  rewrite E', E. apply in_or_app. right. apply in_or_app. now left.
Qed.

Lemma collapsed_app (l1 l2 : ustring) :
  collapsed (l1 ++ l2) -> collapsed l1 /\ collapsed l2.
Proof.
  induction l1 as [|c l1 IH]; simpl; [easy|].
  intros [Hc Hrest]. destruct (IH Hrest) as [H1 H2].
  repeat split; try assumption.
  - now apply Hc.
  - destruct l1; [exact I|]. now apply Hc.
Qed.

Lemma collapsed_strip (l : ustring) : collapsed l -> collapsed (strip l).
Proof.
  intros H. unfold strip.
  destruct (lstrip_suffix l) as [pre E]. rewrite E in H.
  apply collapsed_app in H as [_ H].
  destruct (rstrip_prefix (lstrip l)) as [suf E']. rewrite E' in H.
  now apply collapsed_app in H as [H _].
Qed.

Lemma re_sub_spaces_collapsed (l : ustring) :
  forall b,
    collapsed (re_sub_spaces b l)
    /\ (b = true -> forall c, head (re_sub_spaces b l) = Some c -> re_space c = false).
Proof.
  induction l as [|c l IH]; intros b; simpl; [easy|].
  destruct (re_space c) eqn:Ec.
  - destruct b.
    + apply IH.
    + split; [|discriminate]. simpl. split; [|apply IH].
      intros _. split; [reflexivity|].
      destruct (IH true) as [_ Hhead].
      destruct (re_sub_spaces true l); [exact I|]. now apply Hhead.
  - split.
    + simpl. split; [congruence|apply IH].
    + intros _ c' [= <-]. assumption.
Qed.

Lemma re_sub_spaces_fixed (l : ustring) :
  collapsed l ->
  re_sub_spaces false l = l
  /\ ((forall c, head l = Some c -> re_space c = false) -> re_sub_spaces true l = l).
Proof.
  induction l as [|c l IH]; simpl; [easy|].
  intros [Hc Hrest]. destruct (IH Hrest) as [IHf IHt].
  destruct (re_space c) eqn:Ec.
  - destruct (Hc eq_refl) as [-> Hnext]. split.
    + f_equal. apply IHt. intros c' Hc'. destruct l; [discriminate|].
      injection Hc' as <-. assumption.
    + intros H. specialize (H SPACE eq_refl). congruence.
  - split; intros; now rewrite IHf.
Qed.

Lemma In_re_sub_spaces (l : ustring) (c : N) :
  forall b, In c (re_sub_spaces b l) -> c = SPACE \/ (In c l /\ re_space c = false).
Proof.
  induction l as [|x l IH]; intros b; simpl; [easy|].
  destruct (re_space x) eqn:Ex.
  - destruct b; simpl.
    + intros H. destruct (IH _ H) as [|[? ?]]; auto.
    + intros [<-|H]; [now left|]. destruct (IH _ H) as [|[? ?]]; auto.
  - simpl. intros [<-|H]; [right; auto|]. destruct (IH _ H) as [|[? ?]]; auto.
Qed.

Lemma In_re_sub_special (l : ustring) (c : N) :
  In c (re_sub_special l) ->
  c = SPACE \/ (In c l /\ re_word c || re_space c = true).
Proof.
  unfold re_sub_special. rewrite in_map_iff. intros (x & E & Hx).
  destruct (re_word x || re_space x) eqn:Ex; subst; auto.
Qed.

(** The characters of a normalised string. *)
Lemma In_normalize_str (s : ustring) (c : N) :
  In c (normalize_str s) ->
  c = SPACE
  \/ (In c (unicodedata_nfd (str_lower s))
      /\ re_word c = true /\ re_space c = false /\ category_Mn c = false).
Proof.
  unfold normalize_str. intros H. apply In_strip in H.
  apply In_re_sub_spaces in H as [|[H Hsp]]; [now left|].
  apply In_re_sub_special in H as [|[H Hws]]; [now left|].
  apply filter_In in H as [H HMn]. right.
  rewrite Hsp, orb_false_r in Hws. apply negb_true_iff in HMn. auto.
Qed.

Lemma normalize_str_collapsed (s : ustring) : collapsed (normalize_str s).
Proof. unfold normalize_str. apply collapsed_strip, re_sub_spaces_collapsed. Qed.

Lemma collapsed_single_spaces (l : ustring) :
  re_space SPACE = true -> collapsed l -> single_spaces l.
Proof.
  intros Hsp. unfold single_spaces. induction l as [|c l IH]; intros Hc i.
  - now destruct i.
  - destruct Hc as [Hc Hrest]. destruct i as [|i]; simpl.
    + intros [= ->]. destruct (Hc Hsp) as [_ Hnext].
      destruct l as [|c' l]; [discriminate|]. simpl. intros [= ->]. congruence.
    + now apply IH.
Qed.

Lemma filter_fixed {A} (p : A -> bool) (l : list A) :
  (forall x, In x l -> p x = true) -> List.filter p l = l.
Proof.
  induction l as [|x l IH]; simpl; [reflexivity|]. intros H.
  rewrite (H x) by now left. f_equal. apply IH. intros; apply H. now right.
Qed.

Lemma re_sub_special_fixed (l : ustring) :
  (forall c, In c l -> re_word c || re_space c = true) -> re_sub_special l = l.
Proof.
  unfold re_sub_special. induction l as [|x l IH]; simpl; [reflexivity|]. intros H.
  rewrite (H x) by now left. f_equal. apply IH. intros; apply H. now right.
Qed.

Lemma norm_idempotent (s : ustring) :
  space_is_whitespace -> lowered_decomposed_stable -> norm (norm s) = norm s.
Proof.
  intros [Hsp HMn] Hstable. destruct s as [|c0 s0]; [reflexivity|].
  unfold norm at 2 3. set (s := c0 :: s0). set (out := normalize_str s).
  pose proof (In_normalize_str s) as Hchars. fold out in Hchars.
  destruct (Hstable s out Hchars) as [Hlow Hnfd].
  unfold norm. destruct out as [|x out'] eqn:Eout; [reflexivity|].
  rewrite <- Eout in *. unfold normalize_str at 1.
  rewrite Hlow, Hnfd.
  rewrite filter_fixed.
  2:{ intros c Hc. destruct (Hchars c Hc) as [->|(_ & _ & _ & ->)];
        [now rewrite HMn | reflexivity]. }
  rewrite re_sub_special_fixed.
  2:{ intros c Hc. destruct (Hchars c Hc) as [->|(_ & -> & _ & _)];
        [now rewrite Hsp, orb_true_r | reflexivity]. }
  rewrite (proj1 (re_sub_spaces_fixed out (normalize_str_collapsed s))).
  apply strip_fixed. apply strip_no_outer_whitespace.
Qed.

End NormalizeFacts.

(** The ASCII tables have the two properties. *)
Lemma ascii_space_is_whitespace :
  space_is_whitespace (rt := AsciiRuntime.ascii_runtime).
Proof. split; reflexivity. Qed.

Lemma ascii_lower_char_idem (c : N) :
  AsciiRuntime.lower_char (AsciiRuntime.lower_char c) = AsciiRuntime.lower_char c.
Proof.
  unfold AsciiRuntime.lower_char.
  destruct ((65 <=? c)%N && (c <=? 90)%N) eqn:E.
  - apply andb_true_iff in E as [E1 E2].
    apply N.leb_le in E1, E2.
    destruct (N.leb_spec (c + 32) 90); [lia|]. now rewrite andb_false_r.
  - now rewrite E.
Qed.

Lemma ascii_lowered_decomposed_stable :
  lowered_decomposed_stable (rt := AsciiRuntime.ascii_runtime).
Proof.
  intros s t H. simpl. split; [|reflexivity].
  induction t as [|c t IH]; [reflexivity|]. simpl. f_equal.
  - destruct (H c (or_introl eq_refl)) as [->|(Hin & _)]; [reflexivity|].
    simpl in Hin. apply in_map_iff in Hin as (x & <- & _).
    apply ascii_lower_char_idem.
  - apply IH. intros c' Hc'. apply H. now right.
Qed.

(** C8: normalising twice is normalising once, and a normalised text
    consists of spaces and of word characters that are not nonspacing
    marks, has no two spaces in a row and no whitespace at either end.
    The runtime is assumed to treat the space as whitespace and not as a
    mark, and to leave lower-cased, decomposed word characters alone. *)
Theorem normalize_text_idempotent {rt : PyRuntime} (s : ustring) :
  space_is_whitespace -> lowered_decomposed_stable ->
  exists out,
    normalize_text (PyStr s) = Ret out
    /\ normalize_text (PyStr out) = Ret out
    /\ Forall (fun c => c = SPACE \/ (re_word c = true /\ category_Mn c = false)) out
    /\ single_spaces out
    /\ no_outer_whitespace out.
Proof.
  intros Hsp Hstable. exists (norm s). rewrite !normalize_text_str.
  split; [reflexivity|]. split; [now rewrite norm_idempotent|].
  destruct s as [|c0 s0].
  - simpl. split; [constructor|]. split; [intros i; now destruct i|].
    split; intros c; discriminate.
  - unfold norm. set (s := c0 :: s0). split; [|split; [|split]].
    + apply Forall_forall. intros c Hc. apply list_elem_of_In in Hc.
      destruct (In_normalize_str s c Hc) as [|(_ & ? & _ & ?)]; auto.
    + apply collapsed_single_spaces; [apply Hsp|apply normalize_str_collapsed].
    + apply strip_no_outer_whitespace.
    + apply strip_no_outer_whitespace.
Qed.

Lemma normalize_text_idempotent_witness :
  exists out,
    normalize_text (rt := AsciiRuntime.ascii_runtime) (PyStr (u "  HELLO,  World! "))
    = Ret out
    /\ normalize_text (rt := AsciiRuntime.ascii_runtime) (PyStr out) = Ret out
    /\ Forall (fun c => c = SPACE
                        \/ (re_word (PyRuntime := AsciiRuntime.ascii_runtime) c = true
                            /\ category_Mn (PyRuntime := AsciiRuntime.ascii_runtime) c
                               = false)) out
    /\ single_spaces out
    /\ no_outer_whitespace (rt := AsciiRuntime.ascii_runtime) out.
Proof.
  exact (normalize_text_idempotent (rt := AsciiRuntime.ascii_runtime)
           (u "  HELLO,  World! ")
           ascii_space_is_whitespace ascii_lowered_decomposed_stable).
Defined.

(** ** Slices, the completion order, the sort *)

Lemma firstn_In {A} (n : nat) (l : list A) (x : A) : In x (firstn n l) -> In x l.
Proof.
  intros H. rewrite <- (firstn_skipn n l). apply in_or_app. now left.
Qed.


Lemma py_take_In {A} (k : Z) (l : list A) (x : A) : In x (py_take k l) -> In x l.
Proof. unfold py_take. destruct (0 <=? k)%Z; apply firstn_In. Qed.

Lemma py_take_length {A} (k : Z) (l : list A) :
  (0 <= k)%Z -> (Z.of_nat (length (py_take k l)) <= k)%Z.
Proof.
  intros Hk. unfold py_take. destruct (Z.leb_spec 0 k); [|lia].
  rewrite length_firstn. lia.
Qed.


Lemma py_take_negative_length {A} (k : Z) (l : list A) :
  (k < 0)%Z -> length (py_take k l) = length l - Z.to_nat (- k).
Proof.
  intros Hk. unfold py_take. destruct (Z.leb_spec 0 k); [lia|].
  rewrite length_firstn. lia.
Qed.

Lemma firstn_prefix_mono {A} (n1 n2 : nat) (l r : list A) :
  n1 <= n2 -> firstn n1 l `prefix_of` firstn n2 (l ++ r).
Proof.
  revert n1 n2. induction l as [|x l IH]; intros n1 n2 Hn.
  - rewrite firstn_nil. apply prefix_nil.
  - destruct n1 as [|n1]; [apply prefix_nil|].
    destruct n2 as [|n2]; [lia|]. simpl. apply prefix_cons, IH. lia.
Qed.



Lemma remove_nth_perm {A} (l : list A) :
  forall (k : nat) (x : A),
    nth_error l k = Some x -> Permutation (x :: remove_nth k l) l.
Proof.
  induction l as [|y l IH]; intros [|k] x H; simpl in *; try discriminate.
  - injection H as ->. reflexivity.
  - rewrite perm_swap. constructor. now apply IH.
Qed.

Lemma as_completed_perm {A} (picks : list nat) :
  forall pending : list A, Permutation (as_completed picks pending) pending.
Proof.
  induction picks as [|p picks IH]; intros pending; simpl; [reflexivity|].
  destruct (nth_error pending (p mod length pending)) as [x|] eqn:E.
  - rewrite IH. now apply remove_nth_perm.
  - destruct pending as [|y pending]; [reflexivity|].
    apply nth_error_None in E.
    pose proof (Nat.mod_upper_bound p (length (y :: pending))) as Hlt.
    simpl in *. lia.
Qed.

Lemma as_completed_In {A} (picks : list nat) (pending : list A) (x : A) :
  In x (as_completed picks pending) <-> In x pending.
Proof.
  split; apply Permutation_in; [|symmetry]; apply as_completed_perm.
Qed.

Lemma insert_desc_perm (x : sim_result) (l : list sim_result) :
  Permutation (insert_desc x l) (x :: l).
Proof.
  induction l as [|y l IH]; simpl; [reflexivity|].
  destruct (float_geb _ _); [reflexivity|].
  rewrite IH. apply perm_swap.
Qed.

Lemma sort_by_combined_perm (l : list sim_result) :
  Permutation (sort_by_combined l) l.
Proof.
  induction l as [|x l IH]; simpl; [reflexivity|].
  rewrite insert_desc_perm. now constructor.
Qed.

Lemma sort_by_combined_In (l : list sim_result) (x : sim_result) :
  In x (sort_by_combined l) <-> In x l.
Proof.
  split; apply Permutation_in; [|symmetry]; apply sort_by_combined_perm.
Qed.

Lemma sort_by_combined_length (l : list sim_result) :
  length (sort_by_combined l) = length l.
Proof. apply Permutation_length, sort_by_combined_perm. Qed.

Lemma insert_desc_sorted (x : sim_result) (l : list sim_result) :
  StronglySorted score_ge l -> StronglySorted score_ge (insert_desc x l).
Proof.
  induction 1 as [|y l Hl IH Hy]; simpl.
  - repeat constructor.
  - destruct (float_geb (result_combined x) (result_combined y)) eqn:E.
    + apply float_geb_true in E. constructor; [now constructor|].
      constructor; [exact E|].
      rewrite List.Forall_forall in *. intros z Hz. specialize (Hy z Hz).
      unfold score_ge in *. lra.
    + apply float_geb_false in E. constructor; [assumption|].
      rewrite List.Forall_forall in *. intros z Hz.
      apply (Permutation_in _ (insert_desc_perm x l)) in Hz as [<-|Hz].
      * unfold score_ge. lra.
      * now apply Hy.
Qed.

Lemma sort_by_combined_sorted (l : list sim_result) :
  StronglySorted score_ge (sort_by_combined l).
Proof.
  induction l as [|x l IH]; simpl; [constructor|]. now apply insert_desc_sorted.
Qed.

Lemma sorted_descending (l : list sim_result) :
  StronglySorted score_ge l -> descending l.
Proof.
  unfold descending. induction 1 as [|y l Hl IH Hy]; intros i a b Ha Hb.
  - now destruct i.
  - destruct i as [|i]; simpl in *.
    + injection Ha as ->. rewrite List.Forall_forall in Hy.
      apply Hy. destruct l; [discriminate|]. injection Hb as ->. now left.
    + eapply IH; eassumption.
Qed.

Lemma sorted_prefix (l1 l2 : list sim_result) :
  l1 `prefix_of` l2 -> StronglySorted score_ge l2 -> StronglySorted score_ge l1.
Proof.
  intros [r ->]. revert r. induction l1 as [|x l1 IH]; intros r H; [constructor|].
  simpl in H. inversion H as [|? ? Hl Hx]; subst. constructor; [eapply IH; eassumption|].
  rewrite List.Forall_forall in *. intros z Hz. apply Hx, in_or_app. now left.
Qed.





(** ** The worker on well-formed input *)

Section WorkerFacts.
Context {rt : PyRuntime}.

Lemma tfidf_similarity_str (s1 s2 : ustring) :
  exists v, tfidf_similarity (PyStr s1) (PyStr s2) = Ret v.
Proof.
  unfold tfidf_similarity. rewrite !normalize_text_str. cbn [mbind exc_bind].
  destruct (_ || _); [eauto|]. destruct (_ || _); [eauto|].
  cbv zeta. destruct (_ || _); eauto.
Qed.

Lemma levenshtein_similarity_total (s1 s2 : ustring) :
  exists v, levenshtein_similarity (PyStr s1) (PyStr s2) = Ret v.
Proof.
  destruct s1 as [|c1 s1], s2 as [|c2 s2]; eexists; reflexivity.
Qed.

Lemma combined_similarity_str (text1 text2 title1 title2 : ustring) :
  exists v, combined_similarity (PyStr text1) (PyStr text2)
                                (PyStr title1) (PyStr title2) = Ret v.
Proof.
  unfold combined_similarity.
  destruct (_ || _); [eauto|].
  rewrite sequence_similarity_str.
  destruct (cosine_similarity_str text1 text2) as [cs ->].
  destruct (extract_keywords_str text1 3) as [k1 ->].
  destruct (extract_keywords_str text2 3) as [k2 ->].
  cbn [mbind exc_bind]. rewrite sequence_similarity_str.
  destruct (_ && _); cbn [mbind exc_bind]; eauto.
Qed.

(** On strings the metrics never raise: the worker returns a computed
    result whose combined score is the one of [combined_similarity]. *)
Lemma calculate_metrics_str (id1 id2 : pyval) (text1 title1 text2 title2 : ustring) :
  exists m,
    calculate_metrics (id1, PyStr text1, PyStr title1, id2, PyStr text2, PyStr title2)
    = Ret (Scored id1 id2 m)
    /\ combined_similarity (PyStr text1) (PyStr text2) (PyStr title1) (PyStr title2)
       = Ret (combined m).
Proof.
  unfold calculate_metrics.
  rewrite sequence_similarity_str.
  destruct (cosine_similarity_str text1 text2) as [cs ->].
  destruct (extract_keywords_str text1 3) as [k1 ->].
  destruct (extract_keywords_str text2 3) as [k2 ->].
  destruct (levenshtein_similarity_total text1 text2) as [lv ->].
  destruct (tfidf_similarity_str text1 text2) as [tf ->].
  destruct (combined_similarity_str text1 text2 title1 title2) as [cb Hcb].
  rewrite Hcb. cbn [mbind exc_bind]. eexists. split; [reflexivity|]. reflexivity.
Qed.

End WorkerFacts.

(** ** The ranker *)

Section RankerFacts.
Context {rt : PyRuntime}.

Lemma flat_map_guarded_filter {A B} (skip : A -> bool) (f : A -> B) (p : B -> bool)
    (l : list A) :
  flat_map (fun x => if skip x then [] else if p (f x) then [f x] else []) l
  = List.filter p (flat_map (fun x => if skip x then [] else [f x]) l).
Proof.
  induction l as [|x l IH]; simpl; [reflexivity|].
  destruct (skip x); simpl; [assumption|].
  destruct (p (f x)); simpl; now rewrite IH.
Qed.

Lemma flat_map_filter_map {A B} (f : A -> B) (p : B -> bool) (l : list A) :
  flat_map (fun x => if p (f x) then [f x] else []) l = List.filter p (map f l).
Proof.
  induction l as [|x l IH]; simpl; [reflexivity|].
  destruct (p (f x)); simpl; now rewrite IH.
Qed.

Lemma find_similar_tickets_unfold (self : SimilarityService) (env : pool_env)
    (target : ticket) (cands : list ticket) (threshold : R) (max_results : Z) :
  find_similar_tickets self env target cands threshold max_results
  = if is_nil cands then []
    else py_take max_results
           (sort_by_combined
              (List.filter (accepted threshold)
                 (arrived self env
                    (map (candidate_args (dict_get target "content")
                                         (dict_get target "title"))
                         (candidates_kept self cands))))).
Proof.
  unfold find_similar_tickets, arrived, candidates_kept,
    collect_parallel, collect_sequential.
  destruct (is_nil cands); [reflexivity|]. cbv zeta.
  destruct (start_pool self env) as [run|].
  - now rewrite <- flat_map_guarded_filter.
  - now rewrite <- flat_map_filter_map.
Qed.

Lemma candidates_kept_In (self : SimilarityService) (cands : list ticket) (c : ticket) :
  In c (candidates_kept self cands) -> In c cands.
Proof.
  unfold candidates_kept. destruct (_ <? _)%Z; [apply py_take_In | easy].
Qed.

Lemma arrived_In (self : SimilarityService) (env : pool_env) (args_list : list task)
    (r : sim_result) :
  In r (arrived self env args_list) ->
  exists args, In args args_list /\ r = _calculate_single_similarity args.
Proof.
  unfold arrived. destruct (start_pool self env) as [run|].
  - rewrite in_flat_map. intros ([i args] & Hin & Hr).
    apply as_completed_In in Hin. apply in_combine_r in Hin.
    simpl in Hr. destruct (broken_future run i); [easy|].
    destruct Hr as [<-|[]]. eauto.
  - rewrite in_map_iff. intros (args & <- & Hin). eauto.
Qed.



Lemma worker_ids (args : task) :
  let '(id1, _, _, id2, _, _) := args in
  result_id1 (_calculate_single_similarity args) = id1
  /\ result_id2 (_calculate_single_similarity args) = id2.
Proof.
  destruct args as [[[[[id1 text1] title1] id2] text2] title2].
  unfold _calculate_single_similarity, calculate_metrics.
  repeat match goal with
         | |- context [mbind _ ?m] => destruct m; cbn [mbind exc_bind]
         end; simpl; auto.
Qed.

Lemma accepted_spec (threshold : R) (r : sim_result) :
  accepted threshold r = true <->
  has_error r = false /\ (threshold <= result_combined r)%R.
Proof.
  unfold accepted. rewrite andb_true_iff, negb_true_iff, float_geb_true. tauto.
Qed.

Lemma py_take_prefix_self {A} (k : Z) (l : list A) : py_take k l `prefix_of` l.
Proof.
  unfold py_take.
  destruct (0 <=? k)%Z;
    match goal with
    | |- firstn ?n _ `prefix_of` _ => exists (skipn n l); now rewrite firstn_skipn
    end.
Qed.



End RankerFacts.

(** C1 (as stated, refuted): with max_results = -1 the slice drops the
    last entry only; two matching candidates leave one result, and a
    list of length 1 is not of length at most -1. *)
Lemma find_similar_tickets_negative_max_results :
  let out :=
    find_similar_tickets (rt := AsciiRuntime.ascii_runtime) sample_service
      PoolUnavailable (printer_ticket 1) [printer_ticket 2; printer_ticket 3]
      0%R (-1) in
  length out = 1 /\ ~ (Z.of_nat (length out) <= -1)%Z.
Proof.
  cbv zeta. rewrite find_similar_tickets_unfold. cbn [is_nil].
  rewrite py_take_negative_length, sort_by_combined_length by lia.
  set (rt := AsciiRuntime.ascii_runtime).
  assert (length (List.filter (accepted 0)
            (arrived sample_service PoolUnavailable
               (map (candidate_args (dict_get (printer_ticket 1) "content")
                                    (dict_get (printer_ticket 1) "title"))
                    (candidates_kept sample_service
                       [printer_ticket 2; printer_ticket 3])))) = 2) as ->.
  { change (candidates_kept sample_service [printer_ticket 2; printer_ticket 3])
      with [printer_ticket 2; printer_ticket 3].
    unfold arrived. change (start_pool sample_service PoolUnavailable) with (@None pool_run).
    cbn [map].
    assert (forall c, In c [printer_ticket 2; printer_ticket 3] ->
              accepted 0
                (_calculate_single_similarity
                   (candidate_args (dict_get (printer_ticket 1) "content")
                      (dict_get (printer_ticket 1) "title") c)) = true) as Hacc.
    { intros c Hc.
      destruct (calculate_metrics_str
                  (dict_get c "id") (dict_get c "id")
                  (u "Problema com impressora HP") (u "Impressora")
                  (u "Problema com impressora HP") (u "Impressora"))
        as (m & Hm & Hcomb).
      assert (candidate_args (dict_get (printer_ticket 1) "content")
                (dict_get (printer_ticket 1) "title") c
              = (dict_get c "id", PyStr (u "Problema com impressora HP"),
                 PyStr (u "Impressora"), dict_get c "id",
                 PyStr (u "Problema com impressora HP"), PyStr (u "Impressora")))
        as -> by (destruct Hc as [<-|[<-|[]]]; reflexivity).
      unfold _calculate_single_similarity. rewrite Hm.
      apply accepted_spec. split; [reflexivity|]. cbn [result_combined].
      apply combined_similarity_range in Hcomb. apply Hcomb. }
    cbn [List.filter].
    rewrite (Hacc (printer_ticket 2)) by (left; reflexivity).
    rewrite (Hacc (printer_ticket 3)) by (right; left; reflexivity).
    reflexivity. }
  split; [reflexivity|]. cbn. lia.
Qed.

(** C1 (amended): for every target, candidate list and threshold and
    every max_results that is not negative, the list returned by
    [find_similar_tickets] is sorted by combined score in descending
    order, has at most max_results entries, and each entry has a
    combined score of at least the threshold. *)
Theorem find_similar_tickets_ranked {rt : PyRuntime} (self : SimilarityService)
    (env : pool_env) (target : ticket) (cands : list ticket) (threshold : R)
    (max_results : Z) :
  (0 <= max_results)%Z ->
  let out := find_similar_tickets self env target cands threshold max_results in
  descending out
  /\ (Z.of_nat (length out) <= max_results)%Z
  /\ (forall r, In r out -> (threshold <= result_combined r)%R).
Proof.
  intros Hmax out. subst out. rewrite find_similar_tickets_unfold.
  destruct (is_nil cands).
  { split; [intros i; now destruct i|]. split; [simpl; lia|easy]. }
  split; [|split].
  - apply sorted_descending.
    eapply sorted_prefix; [apply py_take_prefix_self|apply sort_by_combined_sorted].
  - now apply py_take_length.
  - intros r Hr. apply py_take_In, sort_by_combined_In, filter_In in Hr as [_ Hr].
    now apply accepted_spec in Hr.
Qed.

Lemma find_similar_tickets_ranked_witness :
  let out :=
    find_similar_tickets (rt := AsciiRuntime.ascii_runtime) sample_service
      sample_pool (printer_ticket 1)
      [printer_ticket 2; malformed_ticket 3; printer_ticket 4] 0.3%R 1 in
  descending out
  /\ (Z.of_nat (length out) <= 1)%Z
  /\ (forall r, In r out -> (0.3 <= result_combined r)%R).
Proof.
  apply (find_similar_tickets_ranked (rt := AsciiRuntime.ascii_runtime)). lia.
Defined.

(** *** Identical tickets *)

Lemma jaccard_same (A : gset ustring) : jaccard_similarity A A = 1%R.
Proof.
  unfold jaccard_similarity.
  destruct (set_empty A) eqn:EA; cbn [andb orb]; [reflexivity|].
  apply set_empty_false in EA.
  pose proof (intersection_idemp_L A) as Hi. pose proof (union_idemp_L A) as Hu.
  rewrite Hi, Hu.
  assert (size A <> 0) as Hs.
  { intros Hz. apply size_empty_iff in Hz. apply EA. now apply leibniz_equiv. }
  destruct (Nat.ltb_spec 0 (size A)); [|lia].
  apply Rinv_r. now apply not_0_INR.
Qed.

Section IdenticalTickets.
Context {rt : PyRuntime}.

Lemma ratio_full_match (a : ustring) :
  matching_size a a = length a -> ratio a a = 1%R.
Proof.
  intros Hm. unfold ratio. rewrite Hm.
  destruct (Nat.ltb_spec 0 (length a + length a)) as [Hpos|]; [|reflexivity].
  rewrite plus_INR. apply lt_INR in Hpos. rewrite plus_INR in Hpos. simpl in Hpos.
  field. lra.
Qed.

(** A ticket compared with an identical one passes the threshold 0.9:
    same text with at least one word, same non-empty title, given that
    the matching blocks of a string against itself cover the whole
    string. *)
Lemma combined_similarity_identical_high (text title : ustring) (v : R) :
  str_split (norm text) <> [] -> title <> [] ->
  matching_size (norm text) (norm text) = length (norm text) ->
  matching_size (norm title) (norm title) = length (norm title) ->
  combined_similarity (PyStr text) (PyStr text) (PyStr title) (PyStr title) = Ret v ->
  (0.9 <= v)%R.
Proof.
  intros Hw Ht Hm Hmt Hv.
  assert (text <> []) as Hne by (intros ->; now apply Hw).
  destruct (combined_similarity_formula text text title title Hne Hne)
    as (sq & cs & k1 & k2 & ts & Hsq & Hcs & Hk1 & Hk2 & Hts & Hcomb).
  rewrite Hcomb in Hv. injection Hv as <-.
  rewrite Hk1 in Hk2. injection Hk2 as <-. rewrite jaccard_same.
  rewrite (cosine_similarity_self text Hw) in Hcs. injection Hcs as <-.
  rewrite sequence_similarity_str in Hsq.
  assert (is_nil text = false) as E by (now destruct text).
  rewrite E in Hsq. cbn [orb] in Hsq. injection Hsq as <-.
  assert (is_nil title = false) as E' by (now destruct title).
  rewrite E' in Hts. cbn [orb] in Hts.
  rewrite sequence_similarity_str, E' in Hts. cbn [orb] in Hts. injection Hts as <-.
  rewrite !ratio_full_match by assumption.
  rewrite Rmin_left by lra. lra.
Qed.

End IdenticalTickets.
Lemma printer_tickets_tied {rt : PyRuntime} (id id' : Z) :
  matching_size (norm (u "Problema com impressora HP"))
                (norm (u "Problema com impressora HP"))
  = length (norm (u "Problema com impressora HP")) ->
  matching_size (norm (u "Impressora")) (norm (u "Impressora"))
  = length (norm (u "Impressora")) ->
  str_split (norm (u "Problema com impressora HP")) <> [] ->
  exists m m',
    _calculate_single_similarity
      (candidate_args (dict_get (printer_ticket 1) "content")
                      (dict_get (printer_ticket 1) "title") (printer_ticket id))
    = Scored (PyInt id) (PyInt id) m
    /\ _calculate_single_similarity
         (candidate_args (dict_get (printer_ticket 1) "content")
                         (dict_get (printer_ticket 1) "title") (printer_ticket id'))
       = Scored (PyInt id') (PyInt id') m'
    /\ combined m = combined m'
    /\ (0.9 <= combined m)%R.
Proof.
  intros Hm Hmt Hw.
  destruct (calculate_metrics_str (PyInt id) (PyInt id)
              (u "Problema com impressora HP") (u "Impressora")
              (u "Problema com impressora HP") (u "Impressora"))
    as (m & Hcalc & Hc).
  destruct (calculate_metrics_str (PyInt id') (PyInt id')
              (u "Problema com impressora HP") (u "Impressora")
              (u "Problema com impressora HP") (u "Impressora"))
    as (m' & Hcalc' & Hc').
  exists m, m'.
  change (candidate_args (dict_get (printer_ticket 1) "content")
            (dict_get (printer_ticket 1) "title") (printer_ticket id))
    with (PyInt id, PyStr (u "Problema com impressora HP"), PyStr (u "Impressora"),
          PyInt id, PyStr (u "Problema com impressora HP"), PyStr (u "Impressora")).
  change (candidate_args (dict_get (printer_ticket 1) "content")
            (dict_get (printer_ticket 1) "title") (printer_ticket id'))
    with (PyInt id', PyStr (u "Problema com impressora HP"), PyStr (u "Impressora"),
          PyInt id', PyStr (u "Problema com impressora HP"), PyStr (u "Impressora")).
  unfold _calculate_single_similarity. rewrite Hcalc, Hcalc'.
  split; [reflexivity|]. split; [reflexivity|]. split.
  - rewrite Hc in Hc'. now injection Hc'.
  - apply (combined_similarity_identical_high
             (u "Problema com impressora HP") (u "Impressora") _ Hw); try assumption.
    vm_compute. discriminate.
Qed.




(** C10 (as stated, refuted): nothing removes the target from the
    candidates; when it is among them it is scored against itself and
    returned, with its own id in [id1] and [id2]. *)
Lemma find_similar_tickets_target_among_candidates :
  let rt := AsciiRuntime.ascii_runtime in
  let target := printer_ticket 1 in
  let out := find_similar_tickets sample_service sample_pool target
               [printer_ticket 1; printer_ticket 2] 0.3%R 10 in
  dict_get target "id" = PyInt 1
  /\ In (PyInt 1) (map result_id1 out)
  /\ In (PyInt 1) (map result_id2 out)
  /\ ~ (forall r, In r out ->
          result_id1 r <> dict_get target "id"
          /\ result_id2 r <> dict_get target "id").
Proof.
  intros rt target out.
  destruct (printer_tickets_tied (rt := rt) 1 2)
    as (m1 & m2 & H1 & H2 & Htie & Hhigh);
    [vm_compute; reflexivity|vm_compute; reflexivity|vm_compute; discriminate|].
  assert (In (Scored (PyInt 1) (PyInt 1) m1) out) as Hin.
  { unfold out, target. rewrite find_similar_tickets_unfold. cbn [is_nil].
    change (candidates_kept sample_service [printer_ticket 1; printer_ticket 2])
      with [printer_ticket 1; printer_ticket 2].
    cbn [map].
    set (a1 := candidate_args _ _ (printer_ticket 1)) in *.
    set (a2 := candidate_args _ _ (printer_ticket 2)) in *.
    change (arrived sample_service sample_pool [a1; a2])
      with [_calculate_single_similarity a2; _calculate_single_similarity a1].
    rewrite H1, H2. cbn [List.filter].
    rewrite !(proj2 (accepted_spec 0.3 _))
      by (split; [reflexivity|cbn [result_combined]; lra]).
    cbn [sort_by_combined fold_right insert_desc].
    rewrite (proj2 (float_geb_true _ _)) by (cbn [result_combined]; lra).
    right. left. reflexivity. }
  split; [reflexivity|].
  split; [exact (in_map result_id1 _ _ Hin)|].
  split; [exact (in_map result_id2 _ _ Hin)|].
  intros H. destruct (H _ Hin) as [Hne _]. now apply Hne.
Qed.

(** C10 (amended): every result returned by [find_similar_tickets] is
    the worker's result for one of the candidates, scored against the
    target's content and title, and carries that candidate's id in both
    [id1] and [id2]. The id of the target plays no part: whatever is
    stored under the key "id" of the target, the returned list is the
    same; so a value appears as an id in a result only if a candidate
    carries it, the target's id included. *)
Theorem find_similar_tickets_ids {rt : PyRuntime} (self : SimilarityService)
    (env : pool_env) (target : ticket) (cands : list ticket) (threshold : R)
    (max_results : Z) :
  (forall r,
      In r (find_similar_tickets self env target cands threshold max_results) ->
      exists c,
        In c cands
        /\ r = _calculate_single_similarity
                 (candidate_args (dict_get target "content")
                                 (dict_get target "title") c)
        /\ result_id1 r = dict_get c "id"
        /\ result_id2 r = dict_get c "id")
  /\ (forall other_id : pyval,
        find_similar_tickets self env (<["id" := other_id]> target) cands
                             threshold max_results
        = find_similar_tickets self env target cands threshold max_results)
  /\ find_similar_tickets self env (delete "id" target) cands threshold max_results
     = find_similar_tickets self env target cands threshold max_results
  /\ (forall v : pyval,
        (forall c, In c cands -> dict_get c "id" <> v) ->
        forall r,
          In r (find_similar_tickets self env target cands threshold max_results) ->
          result_id1 r <> v /\ result_id2 r <> v).
Proof.
  assert (forall r,
      In r (find_similar_tickets self env target cands threshold max_results) ->
      exists c,
        In c cands
        /\ r = _calculate_single_similarity
                 (candidate_args (dict_get target "content")
                                 (dict_get target "title") c)
        /\ result_id1 r = dict_get c "id"
        /\ result_id2 r = dict_get c "id") as Hids.
  { intros r. rewrite find_similar_tickets_unfold.
    destruct (is_nil cands); [easy|]. intros Hr.
    apply py_take_In, sort_by_combined_In, filter_In in Hr as [Hr _].
    apply arrived_In in Hr as (args & Hargs & ->).
    apply in_map_iff in Hargs as (c & <- & Hc).
    apply candidates_kept_In in Hc.
    pose proof (worker_ids (candidate_args (dict_get target "content")
                                           (dict_get target "title") c)) as Hw.
    unfold candidate_args in Hw |- *. destruct Hw as [Hw1 Hw2].
    exists c. split; [assumption|]. split; [reflexivity|]. split; assumption. }
  split; [exact Hids|]. split; [|split].
  - intros other_id. rewrite !find_similar_tickets_unfold.
    unfold dict_get. now rewrite !lookup_insert_ne by discriminate.
  - rewrite !find_similar_tickets_unfold.
    unfold dict_get. now rewrite !lookup_delete_ne by discriminate.
  - intros v Hv r Hr. destruct (Hids r Hr) as (c & Hc & _ & E1 & E2).
    rewrite E1, E2. split; now apply Hv.
Qed.

(** ** A failing candidate *)

Lemma filter_length_perm {A} (p : A -> bool) (l l' : list A) :
  Permutation l l' -> length (List.filter p l) = length (List.filter p l').
Proof.
  induction 1 as [|x l l' _ IH|x y l|l l' l'' _ IH1 _ IH2]; simpl.
  - reflexivity.
  - destruct (p x); simpl; congruence.
  - destruct (p x), (p y); reflexivity.
  - congruence.
Qed.


Lemma filter_length_mono {A} (p q : A -> bool) (l : list A) :
  (forall x, p x = true -> q x = true) ->
  length (List.filter p l) <= length (List.filter q l).
Proof.
  intros H. induction l as [|x l IH]; simpl; [lia|].
  destruct (p x) eqn:E.
  - rewrite (H x E). simpl. lia.
  - destruct (q x); simpl; lia.
Qed.

Lemma map_snd_combine_seq {A} (l : list A) :
  forall start, map snd (combine (seq start (length l)) l) = l.
Proof.
  induction l as [|x l IH]; intros start; simpl; [reflexivity|]. now rewrite IH.
Qed.

Section IsolationFacts.
Context {rt : PyRuntime}.

(** The results that arrive are, up to their order, results of the
    submitted tasks, each task giving one result at most. *)
Lemma arrived_count (self : SimilarityService) (env : pool_env)
    (args_list : list task) (p : sim_result -> bool) :
  length (List.filter p (arrived self env args_list))
  <= length (List.filter p (map _calculate_single_similarity args_list)).
Proof.
  unfold arrived. destruct (start_pool self env) as [run|]; [|lia].
  set (futures := combine (seq 0 (length args_list)) args_list).
  erewrite filter_length_perm
    by (apply Permutation_flat_map, as_completed_perm).
  rewrite <- (map_snd_combine_seq args_list 0). fold futures. rewrite map_map.
  induction futures as [|[i a] fs IH]; simpl; [lia|].
  destruct (broken_future run i); simpl.
  - destruct (p (_calculate_single_similarity a)); simpl; lia.
  - destruct (p (_calculate_single_similarity a)); simpl; lia.
Qed.


End IsolationFacts.



(** ** When the pool cannot be used *)

Section FallbackFacts.
Context {rt : PyRuntime}.

(** [find_similar_tickets] falls back to the sequential loop, whose
    answer is the one of a pool that completes its futures in
    submission order and breaks none. *)
Lemma find_similar_tickets_fallback (self : SimilarityService) (target : ticket)
    (cands : list ticket) (threshold : R) (max_results : Z) (run : pool_run) :
  (0 < max_workers self)%Z ->
  completion run = [] -> (forall i, broken_future run i = false) ->
  find_similar_tickets self PoolUnavailable target cands threshold max_results
  = find_similar_tickets self (PoolRuns run) target cands threshold max_results.
Proof.
  intros Hw Hc Hb. rewrite !find_similar_tickets_unfold.
  destruct (is_nil cands); [reflexivity|]. do 3 f_equal.
  unfold arrived, start_pool.
  destruct (Z.leb_spec (max_workers self) 0) as [|_]; [lia|].
  rewrite Hc. simpl as_completed.
  generalize 0 as start.
  induction (map (candidate_args _ _) _) as [|a l IH]; intros start; simpl;
    [reflexivity|].
  now rewrite Hb, <- IH.
Qed.

(** [calculate_similarity_matrix] has no sequential loop: without a
    pool it returns nothing. *)
Lemma calculate_similarity_matrix_no_pool (self : SimilarityService)
    (tickets : list ticket) (threshold : R) :
  calculate_similarity_matrix self PoolUnavailable tickets threshold = [].
Proof.
  unfold calculate_similarity_matrix. destruct (_ <? _); [reflexivity|].
  cbv zeta. unfold start_pool. now destruct (_ <=? _)%Z.
Qed.

(** A text with at least one word scores 0.3 or more against itself. *)
Lemma combined_similarity_same_text (text title1 title2 : ustring) (v : R) :
  str_split (norm text) <> [] ->
  combined_similarity (PyStr text) (PyStr text) (PyStr title1) (PyStr title2) = Ret v ->
  (0.3 <= v)%R.
Proof.
  intros Hw Hv.
  assert (text <> []) as Ht by (intros ->; now apply Hw).
  destruct (combined_similarity_formula text text title1 title2 Ht Ht)
    as (sq & cs & k1 & k2 & ts & Hsq & Hcs & Hk1 & Hk2 & Hts & Hcomb).
  rewrite Hcomb in Hv. injection Hv as <-.
  rewrite (cosine_similarity_self text Hw) in Hcs. injection Hcs as <-.
  apply sequence_similarity_nonneg in Hsq.
  pose proof (jaccard_range k1 k2) as [Hj _].
  assert (0 <= ts)%R.
  { destruct (is_nil title1 || is_nil title2); [lra|].
    now apply sequence_similarity_nonneg in Hts. }
  apply Rmin_glb; lra.
Qed.

End FallbackFacts.

Section MatrixFacts.
Context {rt : PyRuntime}.

Lemma collect_parallel_single (run : pool_run) (threshold : R) (args : task) :
  broken_future run 0 = false ->
  accepted threshold (_calculate_single_similarity args) = true ->
  collect_parallel run threshold [args] = [_calculate_single_similarity args].
Proof.
  intros Hb Hacc. unfold collect_parallel. simpl combine.
  pose proof (as_completed_perm (completion run) [(0, args)]) as Hp.
  apply Permutation_sym, Permutation_length_1_inv in Hp. rewrite Hp.
  simpl. now rewrite Hb, Hacc.
Qed.

Lemma calculate_similarity_matrix_pair (self : SimilarityService) (run : pool_run)
    (ticket1 ticket2 : ticket) (threshold : R) :
  (0 < max_workers self)%Z -> (2 <= max_items self)%Z ->
  calculate_similarity_matrix self (PoolRuns run) [ticket1; ticket2] threshold
  = sort_by_combined
      (collect_parallel run threshold
         [(dict_get ticket1 "id", dict_get ticket1 "content",
           dict_get ticket1 "title", dict_get ticket2 "id",
           dict_get ticket2 "content", dict_get ticket2 "title")]).
Proof.
  intros Hw Hi. unfold calculate_similarity_matrix, start_pool.
  cbn [length Nat.ltb Nat.leb].
  destruct (Z.ltb_spec (max_items self) (Z.of_nat 2)); [lia|].
  destruct (Z.leb_spec (max_workers self) 0); [lia|].
  reflexivity.
Qed.

End MatrixFacts.

(** C5 (the code at the failing input): two tickets with the same text
    score 0.3 or more against each other, and a pool that runs returns
    that pair; when the pool cannot be used the matrix is empty, for
    there is no sequential loop in [calculate_similarity_matrix]. *)
Theorem similarity_matrix_without_pool :
  let rt := AsciiRuntime.ascii_runtime in
  let documents := [printer_ticket 1; printer_ticket 2] in
  length (calculate_similarity_matrix sample_service sample_pool documents 0.3%R) = 1
  /\ calculate_similarity_matrix sample_service PoolUnavailable documents 0.3%R = [].
Proof.
  intros rt documents. split; [|apply calculate_similarity_matrix_no_pool].
  unfold documents, sample_pool.
  rewrite calculate_similarity_matrix_pair by (simpl; lia).
  rewrite sort_by_combined_length.
  change (dict_get (printer_ticket 1) "content")
    with (PyStr (u "Problema com impressora HP")).
  change (dict_get (printer_ticket 2) "content")
    with (PyStr (u "Problema com impressora HP")).
  change (dict_get (printer_ticket 1) "title") with (PyStr (u "Impressora")).
  change (dict_get (printer_ticket 2) "title") with (PyStr (u "Impressora")).
  rewrite collect_parallel_single; [reflexivity|reflexivity|].
  destruct (calculate_metrics_str
              (dict_get (printer_ticket 1) "id") (dict_get (printer_ticket 2) "id")
              (u "Problema com impressora HP") (u "Impressora")
              (u "Problema com impressora HP") (u "Impressora"))
    as (m & Hm & Hcomb).
  unfold _calculate_single_similarity. rewrite Hm.
  apply accepted_spec. split; [reflexivity|]. cbn [result_combined].
  apply combined_similarity_same_text in Hcomb; [exact Hcomb|].
  vm_compute. discriminate.
Qed.

(** * Further properties of the engine *)

(** ** Jaccard similarity *)

Lemma jaccard_comm (A B : gset ustring) :
  jaccard_similarity A B = jaccard_similarity B A.
Proof.
  unfold jaccard_similarity.
  rewrite (andb_comm (set_empty A)), (orb_comm (set_empty A)).
  pose proof (intersection_comm_L A B) as Hi.
  pose proof (union_comm_L A B) as Hu.
  rewrite Hi, Hu. reflexivity.
Qed.

(** X1: the Jaccard similarity does not depend on the order of its two
    arguments and always lies between 0 and 1. *)
Theorem jaccard_similarity_symmetric_bounded (A B : gset ustring) :
  jaccard_similarity A B = jaccard_similarity B A
  /\ (0 <= jaccard_similarity A B <= 1)%R.
Proof. split; [apply jaccard_comm | apply jaccard_range]. Qed.

Lemma size_inter_union_eq (A B : gset ustring) :
  size (A ∩ B) = size (A ∪ B) -> A = B.
Proof.
  intros Hs.
  assert (A ∩ B = A ∪ B) as E.
  { apply leibniz_equiv.
    apply (set_subseteq_size_equiv (A ∩ B) (A ∪ B)); [set_solver|lia]. }
  apply leibniz_equiv. apply set_equiv. intros x. split; intros Hx.
  - assert (x ∈ A ∪ B) as Hu by set_solver. rewrite <- E in Hu. set_solver.
  - assert (x ∈ A ∪ B) as Hu by set_solver. rewrite <- E in Hu. set_solver.
Qed.

(** X2: the Jaccard similarity is 1.0 exactly when the two sets are
    equal (two empty sets included), and for two non-empty sets it is
    0.0 exactly when they share no element. *)
Theorem jaccard_similarity_extremes (A B : gset ustring) :
  (jaccard_similarity A B = 1%R <-> A = B)
  /\ (A <> ∅ -> B <> ∅ -> (jaccard_similarity A B = 0%R <-> A ∩ B = ∅)).
Proof.
  split.
  - split.
    + unfold jaccard_similarity.
      destruct (set_empty A) eqn:EA, (set_empty B) eqn:EB; cbn [andb orb].
      * intros _. apply set_empty_true in EA, EB. congruence.
      * intros H. lra.
      * intros H. lra.
      * destruct (Nat.ltb_spec 0 (size (A ∪ B))) as [Hpos|Hz]; [|intros H; lra].
        intros H. apply size_inter_union_eq. apply INR_eq.
        apply lt_INR in Hpos. simpl in Hpos.
        apply (Rmult_eq_compat_r (INR (size (A ∪ B)))) in H.
        unfold Rdiv in H. rewrite Rmult_assoc, Rinv_l in H by lra. lra.
    + intros <-. unfold jaccard_similarity.
      destruct (set_empty A) eqn:EA; cbn [andb orb]; [reflexivity|].
      apply set_empty_false in EA.
      pose proof (intersection_idemp_L A) as Hi. pose proof (union_idemp_L A) as Hu.
      rewrite Hi, Hu.
      assert (size A <> 0) as Hs.
      { intros Hz. apply size_empty_iff in Hz. apply EA. now apply leibniz_equiv. }
      destruct (Nat.ltb_spec 0 (size A)); [|lia].
      apply Rinv_r. now apply not_0_INR.
  - intros HA HB. rewrite (jaccard_nonempty A B HA HB).
    assert (0 < size (A ∪ B)) as Hpos.
    { destruct (size (A ∪ B)) eqn:E; [|lia]. apply size_empty_iff in E.
      exfalso. apply HA. apply leibniz_equiv. set_solver. }
    apply lt_INR in Hpos. simpl in Hpos. split.
    + intros H. apply (Rmult_eq_compat_r (INR (size (A ∪ B)))) in H.
      unfold Rdiv in H. rewrite Rmult_assoc, Rinv_l in H by lra.
      rewrite Rmult_1_r, Rmult_0_l in H.
      change 0%R with (INR 0) in H. apply INR_eq in H.
      apply leibniz_equiv. now apply size_empty_iff.
    + intros ->. rewrite size_empty. simpl. lra.
Qed.

(** ** Levenshtein distance as a metric *)

Lemma edits_refl (s : ustring) : edits s s 0.
Proof. induction s; constructor; assumption. Qed.

Lemma edits_zero (s t : ustring) (n : nat) : edits s t n -> n = 0 -> s = t.
Proof.
  induction 1; intros Hn; try discriminate; [reflexivity|].
  f_equal. now apply IHedits.
Qed.

Lemma edits_sym (s t : ustring) (n : nat) : edits s t n -> edits t s n.
Proof. induction 1; constructor; assumption. Qed.

Lemma edits_length (s t : ustring) (n : nat) :
  edits s t n -> length s <= length t + n /\ length t <= length s + n.
Proof. induction 1; simpl; lia. Qed.

Lemma edits_max (s : ustring) :
  forall t, exists n, n <= Nat.max (length s) (length t) /\ edits s t n.
Proof.
  induction s as [|a s IH]; intros t.
  - exists (length t). split; [simpl; lia|]. induction t; constructor; assumption.
  - destruct t as [|b t].
    + exists (length (a :: s)). split; [simpl; lia|].
      clear IH. generalize (a :: s). intros l. induction l; constructor; assumption.
    + destruct (IH t) as (n & Hn & He). exists (S n). split; [simpl; lia|].
      now apply edits_subst.
Qed.

(** Two scripts in a row make a script. *)
Lemma edits_trans (s t : ustring) (n : nat) :
  edits s t n ->
  forall u m, edits t u m -> exists k, k <= n + m /\ edits s u k.
Proof.
  induction 1 as [|c s t n H IH|a b s t n H IH|a s t n H IH|b s t n H IH];
    intros u m H2.
  - exists m. split; [lia|assumption].
  - remember (c :: t) as ct eqn:E. revert E.
    induction H2 as [|c' t' u' m' H2 IH2|a' b' t' u' m' H2 IH2
                     |a' t' u' m' H2 IH2|b' t' u' m' H2 IH2]; intros E.
    + discriminate.
    + injection E as -> ->. destruct (IH _ _ H2) as (k & Hk & He).
      exists k. split; [lia|now apply edits_keep].
    + injection E as -> ->. destruct (IH _ _ H2) as (k & Hk & He).
      exists (S k). split; [lia|now apply edits_subst].
    + injection E as -> ->. destruct (IH _ _ H2) as (k & Hk & He).
      exists (S k). split; [lia|now apply edits_delete].
    + destruct (IH2 E) as (k & Hk & He).
      exists (S k). split; [lia|now apply edits_insert].
  - remember (b :: t) as bt eqn:E. revert E.
    induction H2 as [|c' t' u' m' H2 IH2|a' b' t' u' m' H2 IH2
                     |a' t' u' m' H2 IH2|b' t' u' m' H2 IH2]; intros E.
    + discriminate.
    + injection E as -> ->. destruct (IH _ _ H2) as (k & Hk & He).
      exists (S k). split; [lia|now apply edits_subst].
    + injection E as -> ->. destruct (IH _ _ H2) as (k & Hk & He).
      exists (S k). split; [lia|now apply edits_subst].
    + injection E as -> ->. destruct (IH _ _ H2) as (k & Hk & He).
      exists (S k). split; [lia|now apply edits_delete].
    + destruct (IH2 E) as (k & Hk & He).
      exists (S k). split; [lia|now apply edits_insert].
  - destruct (IH _ _ H2) as (k & Hk & He).
    exists (S k). split; [lia|now apply edits_delete].
  - remember (b :: t) as bt eqn:E. revert E.
    induction H2 as [|c' t' u' m' H2 IH2|a' b' t' u' m' H2 IH2
                     |a' t' u' m' H2 IH2|b' t' u' m' H2 IH2]; intros E.
    + discriminate.
    + injection E as -> ->. destruct (IH _ _ H2) as (k & Hk & He).
      exists (S k). split; [lia|now apply edits_insert].
    + injection E as -> ->. destruct (IH _ _ H2) as (k & Hk & He).
      exists (S k). split; [lia|now apply edits_insert].
    + injection E as -> ->. destruct (IH _ _ H2) as (k & Hk & He).
      exists k. split; [lia|assumption].
    + destruct (IH2 E) as (k & Hk & He).
      exists (S k). split; [lia|now apply edits_insert].
Qed.

Lemma levenshtein_dp_sym (s t : ustring) : levenshtein_dp s t = levenshtein_dp t s.
Proof.
  rewrite !levenshtein_dp_lev.
  apply Nat.le_antisymm; apply lev_minimal, edits_sym, edits_lev.
Qed.

Lemma levenshtein_dp_refl (s : ustring) : levenshtein_dp s s = 0.
Proof.
  rewrite levenshtein_dp_lev. pose proof (lev_minimal s s 0 (edits_refl s)). lia.
Qed.

Lemma levenshtein_dp_upper (s t : ustring) :
  levenshtein_dp s t <= Nat.max (length s) (length t).
Proof.
  rewrite levenshtein_dp_lev.
  destruct (edits_max s t) as (n & Hn & He). apply lev_minimal in He. lia.
Qed.

(** X3: the value computed by the distance matrix of
    [levenshtein_distance] is a metric on strings: it is 0 exactly for
    equal strings, it is symmetric, and it satisfies the triangle
    inequality. *)
Theorem levenshtein_dp_metric (s t w : ustring) :
  (levenshtein_dp s t = 0 <-> s = t)
  /\ levenshtein_dp s t = levenshtein_dp t s
  /\ levenshtein_dp s w <= levenshtein_dp s t + levenshtein_dp t w.
Proof.
  split; [|split].
  - split.
    + rewrite levenshtein_dp_lev.
      intros H. apply (edits_zero s t (lev s t)); [apply edits_lev|assumption].
    + intros <-. apply levenshtein_dp_refl.
  - apply levenshtein_dp_sym.
  - rewrite !levenshtein_dp_lev. destruct (edits_trans s t _ (edits_lev s t) w _ (edits_lev t w))
      as (k & Hk & He).
    apply lev_minimal in He. lia.
Qed.

(** X4: the distance is at least the difference of the two lengths and
    at most the length of the longer string. *)
Theorem levenshtein_dp_bounds (s t : ustring) :
  length s - length t <= levenshtein_dp s t
  /\ length t - length s <= levenshtein_dp s t
  /\ levenshtein_dp s t <= Nat.max (length s) (length t).
Proof.
  pose proof (levenshtein_dp_upper s t). rewrite levenshtein_dp_lev in *.
  pose proof (edits_length s t _ (edits_lev s t)) as [H1 H2].
  lia.
Qed.

Section LevenshteinTexts.
Context {rt : PyRuntime}.

Lemma levenshtein_distance_str (t1 t2 : ustring) :
  levenshtein_distance (PyStr t1) (PyStr t2)
  = Ret (match t1, t2 with
         | [], _ => length t2
         | _, [] => length t1
         | _, _ => levenshtein_dp (norm t1) (norm t2)
         end).
Proof. destruct t1, t2; reflexivity. Qed.

End LevenshteinTexts.

(** X5: on two strings [levenshtein_distance] never raises. When both
    are non-empty it returns the least number of insertions, deletions
    and substitutions that turn the one normalised text into the other;
    when one is empty it returns the length of the other as given, not
    normalised. *)
Theorem levenshtein_distance_on_strings {rt : PyRuntime} (text1 text2 : ustring) :
  exists d,
    levenshtein_distance (PyStr text1) (PyStr text2) = Ret d
    /\ (text1 <> [] -> text2 <> [] -> edit_distance (norm text1) (norm text2) d)
    /\ (text1 = [] -> d = length text2)
    /\ (text2 = [] -> d = length text1).
Proof.
  rewrite levenshtein_distance_str. eexists. split; [reflexivity|].
  destruct text1 as [|c1 r1], text2 as [|c2 r2];
    (split; [|split]); try easy.
  intros _ _. apply levenshtein_dp_edit_distance.
Qed.

(** ** Cosine similarity: symmetry, orthogonal texts *)

Lemma Rsum_nonneg {X} (h : X -> R) (l : list X) :
  (forall x, 0 <= h x)%R -> (0 <= Rsum h l)%R.
Proof.
  intros H. induction l as [|x l IH]; simpl; [lra|]. specialize (H x). lra.
Qed.

Lemma Rsum_ext {X} (h k : X -> R) (l : list X) :
  (forall x, In x l -> h x = k x) -> Rsum h l = Rsum k l.
Proof.
  induction l as [|x l IH]; simpl; [reflexivity|]. intros H.
  rewrite (H x) by now left. f_equal. apply IH. intros; apply H. now right.
Qed.

Lemma Rsum_zero_iff {X} (h : X -> R) (l : list X) :
  (forall x, 0 <= h x)%R ->
  (Rsum h l = 0%R <-> forall x, In x l -> h x = 0%R).
Proof.
  intros Hpos. induction l as [|x l IH]; simpl; [easy|].
  pose proof (Hpos x). pose proof (Rsum_nonneg h l Hpos). split.
  - intros Hs y [<-|Hy]; [lra|]. apply IH; [lra|assumption].
  - intros Hz. rewrite (Hz x) by now left.
    rewrite (proj2 IH); [lra|]. intros; apply Hz. now right.
Qed.

Lemma INR_list_sum {X} (h : X -> nat) (l : list X) :
  INR (list_sum (map h l)) = Rsum (fun x => INR (h x)) l.
Proof.
  induction l as [|x l IH]; simpl; [reflexivity|]. now rewrite plus_INR, IH.
Qed.

Lemma zip_with_map_map {X} (f g : X -> nat) (l : list X) :
  zip_with Nat.mul (map f l) (map g l) = map (fun x => f x * g x) l.
Proof. induction l; simpl; congruence. Qed.

Lemma list_count_pos (w : ustring) (ws : list ustring) :
  0 < list_count w ws <-> In w ws.
Proof.
  unfold list_count. induction ws as [|x ws IH]; simpl; [split; [lia|easy]|].
  destruct (bool_decide_reflect (x = w)) as [->|Hne]; simpl.
  - split; [auto|lia].
  - rewrite IH. split; [auto|]. intros [?|?]; [congruence|assumption].
Qed.

Section CosineWords.
Context {rt : PyRuntime}.

(** The cosine of two word lists, as [cosine_similarity] computes it
    once both texts have at least one word. *)
Lemma cosine_similarity_words (t1 t2 : ustring) :
  words_of t1 <> [] -> words_of t2 <> [] ->
  let V := elements (list_to_set (words_of t1 ++ words_of t2) : gset ustring) in
  let dot := Rsum (fun w => INR (list_count w (words_of t1))
                            * INR (list_count w (words_of t2)))%R V in
  let q1 := Rsum (fun w => INR (list_count w (words_of t1))
                           * INR (list_count w (words_of t1)))%R V in
  let q2 := Rsum (fun w => INR (list_count w (words_of t2))
                           * INR (list_count w (words_of t2)))%R V in
  (1 <= q1)%R /\ (1 <= q2)%R
  /\ cosine_similarity (PyStr t1) (PyStr t2) = Ret (dot / (sqrt q1 * sqrt q2))%R.
Proof.
  intros H1 H2 V dot q1 q2. unfold words_of in *.
  assert (forall ws, ws <> [] -> (forall w, In w ws -> In w V) ->
            (1 <= Rsum (fun w => INR (list_count w ws) * INR (list_count w ws)) V)%R)
    as Hq.
  { intros ws Hne Hsub. destruct ws as [|w0 ws]; [easy|].
    assert (In w0 V) as Hin by (apply Hsub; now left).
    clear Hsub. induction V as [|x V' IH]; [easy|]. simpl.
    assert (0 <= Rsum (fun w => INR (list_count w (w0 :: ws))
                                * INR (list_count w (w0 :: ws))) V')%R
      by (apply Rsum_nonneg; intros; apply Rmult_le_pos; apply pos_INR).
    destruct Hin as [->|Hin].
    - pose proof (list_count_head w0 ws) as Hc. apply le_INR in Hc. simpl in Hc.
      nra.
    - specialize (IH Hin).
      pose proof (pos_INR (list_count x (w0 :: ws))). nra. }
  assert (forall w, In w (str_split (norm t1) ++ str_split (norm t2)) -> In w V)
    as HV.
  { intros w Hw. apply list_elem_of_In, elem_of_elements, elem_of_list_to_set.
    now apply list_elem_of_In. }
  assert (1 <= q1)%R as Hq1
    by (apply Hq; [assumption|intros; apply HV, in_or_app; now left]).
  assert (1 <= q2)%R as Hq2
    by (apply Hq; [assumption|intros; apply HV, in_or_app; now right]).
  split; [assumption|]. split; [assumption|].
  unfold cosine_similarity.
  assert (truthy (PyStr t1) = true) as -> by (destruct t1; [now elim H1|reflexivity]).
  assert (truthy (PyStr t2) = true) as -> by (destruct t2; [now elim H2|reflexivity]).
  cbn [negb orb]. rewrite !normalize_text_str. cbn [mbind exc_bind].
  assert (is_nil (str_split (norm t1)) = false) as ->
    by (destruct (str_split (norm t1)); easy).
  assert (is_nil (str_split (norm t2)) = false) as ->
    by (destruct (str_split (norm t2)); easy).
  cbn [orb]. cbv zeta. fold V.
  rewrite zip_with_map_map, !map_map, !INR_list_sum.
  assert (Rsum (fun x => INR (list_count x (str_split (norm t1))
                          * list_count x (str_split (norm t2)))) V = dot) as ->
    by (apply Rsum_ext; intros; apply mult_INR).
  assert (Rsum (fun x => INR (list_count x (str_split (norm t1))
                          * list_count x (str_split (norm t1)))) V = q1) as ->
    by (apply Rsum_ext; intros; apply mult_INR).
  assert (Rsum (fun x => INR (list_count x (str_split (norm t2))
                          * list_count x (str_split (norm t2)))) V = q2) as ->
    by (apply Rsum_ext; intros; apply mult_INR).
  assert (0 < sqrt q1)%R by (apply sqrt_lt_R0; lra).
  assert (0 < sqrt q2)%R by (apply sqrt_lt_R0; lra).
  rewrite (proj2 (float_eqb_false (sqrt q1) 0)) by lra.
  rewrite (proj2 (float_eqb_false (sqrt q2) 0)) by lra.
  reflexivity.
Qed.

Lemma cosine_similarity_no_words (t1 t2 : ustring) :
  words_of t1 = [] \/ words_of t2 = [] ->
  cosine_similarity (PyStr t1) (PyStr t2) = Ret 0%R.
Proof.
  intros H. unfold cosine_similarity, words_of in *.
  destruct (negb (truthy (PyStr t1)) || negb (truthy (PyStr t2))); [reflexivity|].
  rewrite !normalize_text_str. cbn [mbind exc_bind].
  destruct H as [-> | ->]; cbn [is_nil orb]; [reflexivity|].
  now rewrite orb_true_r.
Qed.

End CosineWords.

(** X6: on two strings the cosine similarity never raises, gives the
    same value whichever text comes first, and is never negative. *)
Theorem cosine_similarity_symmetric_nonneg {rt : PyRuntime} (text1 text2 : ustring) :
  exists v,
    cosine_similarity (PyStr text1) (PyStr text2) = Ret v
    /\ cosine_similarity (PyStr text2) (PyStr text1) = Ret v
    /\ (0 <= v)%R.
Proof.
  destruct (words_of text1) as [|a1 r1] eqn:E1.
  { exists 0%R. rewrite !cosine_similarity_no_words by auto. repeat split; lra. }
  destruct (words_of text2) as [|a2 r2] eqn:E2.
  { exists 0%R. rewrite !cosine_similarity_no_words by auto. repeat split; lra. }
  assert (words_of text1 <> []) as H1 by (rewrite E1; discriminate).
  assert (words_of text2 <> []) as H2 by (rewrite E2; discriminate).
  destruct (cosine_similarity_words text1 text2 H1 H2) as (Hq1 & Hq2 & Hcos).
  destruct (cosine_similarity_words text2 text1 H2 H1) as (_ & _ & Hcos').
  cbv zeta in *.
  assert (list_to_set (words_of text2 ++ words_of text1)
          = (list_to_set (words_of text1 ++ words_of text2) : gset ustring)) as EV.
  { rewrite !list_to_set_app_L. apply union_comm_L. }
  rewrite EV in Hcos'. clear EV.
  set (V := elements (list_to_set (words_of text1 ++ words_of text2) : gset ustring))
    in *.
  set (dot := Rsum (fun w => INR (list_count w (words_of text1)) * INR (list_count w (words_of text2)))%R V) in *.
  set (q1 := Rsum (fun w => INR (list_count w (words_of text1)) * INR (list_count w (words_of text1)))%R V) in *.
  set (q2 := Rsum (fun w => INR (list_count w (words_of text2)) * INR (list_count w (words_of text2)))%R V) in *.
  assert (Rsum (fun w => INR (list_count w (words_of text2)) * INR (list_count w (words_of text1)))%R V = dot) as Ed
    by (apply Rsum_ext; intros; apply Rmult_comm).
  rewrite Ed in Hcos'.
  exists (dot / (sqrt q1 * sqrt q2))%R. split; [exact Hcos|]. split.
  { rewrite Hcos'. do 2 f_equal. apply Rmult_comm. }
  assert (0 <= dot)%R as Hd.
  { apply Rsum_nonneg. intros w. apply Rmult_le_pos; apply pos_INR. }
  assert (0 < sqrt q1 * sqrt q2)%R as Hn
    by (apply Rmult_lt_0_compat; apply sqrt_lt_R0; lra).
  apply Rmult_le_pos; [assumption|]. left. now apply Rinv_0_lt_compat.
Qed.

(** X7: for two texts that both have at least one word, the cosine
    similarity is 0.0 exactly when they have no word in common. *)
Theorem cosine_similarity_zero_iff_disjoint {rt : PyRuntime} (text1 text2 : ustring) :
  words_of text1 <> [] -> words_of text2 <> [] ->
  (cosine_similarity (PyStr text1) (PyStr text2) = Ret 0%R
   <-> forall w, In w (words_of text1) -> ~ In w (words_of text2)).
Proof.
  intros H1 H2.
  destruct (cosine_similarity_words text1 text2 H1 H2) as (Hq1 & Hq2 & ->).
  cbv zeta.
  set (V := elements (list_to_set (words_of text1 ++ words_of text2) : gset ustring))
    in *.
  set (q1 := Rsum (fun w => INR (list_count w (words_of text1)) * INR (list_count w (words_of text1)))%R V) in *.
  set (q2 := Rsum (fun w => INR (list_count w (words_of text2)) * INR (list_count w (words_of text2)))%R V) in *.
  set (h := fun w => (INR (list_count w (words_of text1)) * INR (list_count w (words_of text2)))%R).
  assert (0 < sqrt q1 * sqrt q2)%R as Hn
    by (apply Rmult_lt_0_compat; apply sqrt_lt_R0; lra).
  assert (forall w, 0 <= h w)%R as Hpos
    by (intros; apply Rmult_le_pos; apply pos_INR).
  assert (forall w, In w (words_of text1) -> In w V) as HV.
  { intros w Hw. apply list_elem_of_In, elem_of_elements, elem_of_list_to_set.
    apply list_elem_of_In, in_or_app. now left. }
  split.
  - intros E. injection E as E.
    assert (Rsum h V = 0%R) as Hz.
    { apply (Rmult_eq_compat_r (sqrt q1 * sqrt q2)) in E.
      unfold Rdiv in E. rewrite Rmult_assoc, Rinv_l in E by lra. lra. }
    intros w Hw1 Hw2.
    pose proof (proj1 (Rsum_zero_iff _ V Hpos) Hz w (HV w Hw1)) as Hw.
    apply list_count_pos in Hw1, Hw2. apply lt_INR in Hw1, Hw2. simpl in *.
    unfold h in Hw. nra.
  - intros Hdis. f_equal.
    rewrite (proj2 (Rsum_zero_iff _ V Hpos)); [unfold Rdiv; lra|].
    intros w _. unfold h.
    destruct (list_count w (words_of text1)) eqn:E1; [simpl; lra|].
    destruct (list_count w (words_of text2)) eqn:E2; [simpl; lra|].
    exfalso. apply (Hdis w); apply list_count_pos; lia.
Qed.

Lemma cosine_similarity_zero_iff_disjoint_witness :
  cosine_similarity (rt := AsciiRuntime.ascii_runtime)
    (PyStr (u "hello world")) (PyStr (u "goodbye moon")) = Ret 0%R
  <-> forall w,
      In w (words_of (rt := AsciiRuntime.ascii_runtime) (u "hello world")) ->
      ~ In w (words_of (rt := AsciiRuntime.ascii_runtime) (u "goodbye moon")).
Proof.
  apply (cosine_similarity_zero_iff_disjoint (rt := AsciiRuntime.ascii_runtime));
    vm_compute; discriminate.
Defined.

(** ** TF-IDF similarity *)

Lemma float_sum_map {X} (h : X -> R) (l : list X) :
  float_sum (map h l) = Rsum h l.
Proof.
  unfold float_sum, Rsum. rewrite fold_symmetric by (intros; lra).
  induction l as [|x l IH]; simpl; congruence.
Qed.

Lemma zip_with_Rmult_map {X} (f g : X -> R) (l : list X) :
  zip_with Rmult (map f l) (map g l) = map (fun x => f x * g x)%R l.
Proof. induction l; simpl; congruence. Qed.

Lemma exp_1_gt_2 : (2 < exp 1)%R.
Proof. pose proof (exp_ineq1 1 ltac:(lra)). lra. Qed.

(** The factor [ln(2 / (df + 1)) + 1] is positive for [df] up to 2. *)
Lemma idf_positive (df : nat) :
  df <= 2 -> (0 < ln (2 / (INR df + 1)) + 1)%R.
Proof.
  intros Hdf.
  assert (df = 0 \/ df = 1 \/ df = 2) as [-> | [-> | ->]] by lia; simpl.
  - replace (2 / (0 + 1))%R with 2%R by lra.
    pose proof (ln_lt_2). assert (0 < ln 2)%R; [|lra].
    rewrite <- ln_1. apply ln_increasing; lra.
  - replace (2 / (1 + 1))%R with 1%R by lra. rewrite ln_1. lra.
  - replace (2 / (1 + 1 + 1))%R with (/ (3 / 2))%R by lra.
    rewrite ln_Rinv by lra.
    assert (ln (3 / 2) < 1)%R; [|lra].
    rewrite <- (ln_exp 1). apply ln_increasing; [lra|].
    pose proof exp_1_gt_2. lra.
Qed.

Lemma doc_frequency_two (w : ustring) (d1 d2 : list ustring) :
  doc_frequency w [d1; d2] <= 2
  /\ doc_frequency w [d1; d2] = doc_frequency w [d2; d1].
Proof.
  unfold doc_frequency. simpl.
  destruct (0 <? list_count w d1), (0 <? list_count w d2); simpl; lia.
Qed.

Lemma tfidf_weight_nonneg (w : ustring) (words d1 d2 : list ustring) :
  words <> [] -> (0 <= tfidf_weight w words [d1; d2])%R.
Proof.
  intros Hne. unfold tfidf_weight.
  pose proof (idf_positive _ (proj1 (doc_frequency_two w d1 d2))).
  assert (0 < INR (length words))%R.
  { destruct words; [easy|]. apply lt_0_INR. simpl. lia. }
  pose proof (pos_INR (list_count w words)).
  apply Rmult_le_pos; [|lra].
  apply Rmult_le_pos; [assumption|]. left. now apply Rinv_0_lt_compat.
Qed.

Lemma tfidf_weight_pos (w : ustring) (words d1 d2 : list ustring) :
  In w words -> (0 < tfidf_weight w words [d1; d2])%R.
Proof.
  intros Hin. unfold tfidf_weight.
  pose proof (idf_positive _ (proj1 (doc_frequency_two w d1 d2))).
  assert (0 < INR (length words))%R.
  { destruct words; [easy|]. apply lt_0_INR. simpl. lia. }
  apply list_count_pos, lt_INR in Hin. simpl in Hin.
  apply Rmult_lt_0_compat; [|lra].
  apply Rmult_lt_0_compat; [assumption|]. now apply Rinv_0_lt_compat.
Qed.

Lemma Rsum_square_pos {X} (h : X -> R) (l : list X) (x : X) :
  In x l -> (0 < h x)%R -> (0 < Rsum (fun y => h y * h y) l)%R.
Proof.
  intros Hin Hx.
  assert (forall l', 0 <= Rsum (fun y => h y * h y) l')%R as Hpos
    by (intros; apply Rsum_nonneg; intros; nra).
  induction l as [|y l IH]; [easy|]. simpl. specialize (Hpos l).
  destruct Hin as [->|Hin]; [nra|]. specialize (IH Hin). nra.
Qed.

Section TfidfWords.
Context {rt : PyRuntime}.

Lemma tfidf_similarity_words (t1 t2 : ustring) :
  words_of t1 <> [] -> words_of t2 <> [] ->
  let docs := [words_of t1; words_of t2] in
  let V := elements (list_to_set (words_of t1 ++ words_of t2) : gset ustring) in
  let dot := Rsum (fun w => tfidf_weight w (words_of t1) docs
                            * tfidf_weight w (words_of t2) docs)%R V in
  let q1 := Rsum (fun w => tfidf_weight w (words_of t1) docs
                           * tfidf_weight w (words_of t1) docs)%R V in
  let q2 := Rsum (fun w => tfidf_weight w (words_of t2) docs
                           * tfidf_weight w (words_of t2) docs)%R V in
  (0 < q1)%R /\ (0 < q2)%R
  /\ tfidf_similarity (PyStr t1) (PyStr t2) = Ret (dot / (sqrt q1 * sqrt q2))%R.
Proof.
  intros H1 H2 docs V dot q1 q2. unfold words_of in *.
  assert (forall w, In w (str_split (norm t1) ++ str_split (norm t2)) -> In w V)
    as HV.
  { intros w Hw. apply list_elem_of_In, elem_of_elements, elem_of_list_to_set.
    now apply list_elem_of_In. }
  assert (0 < q1)%R as Hq1.
  { destruct (str_split (norm t1)) as [|w0 ws] eqn:E; [easy|].
    apply (Rsum_square_pos (fun w => tfidf_weight w (w0 :: ws) docs) V w0).
    - apply HV, in_or_app. left. now left.
    - apply tfidf_weight_pos. now left. }
  assert (0 < q2)%R as Hq2.
  { destruct (str_split (norm t2)) as [|w0 ws] eqn:E; [easy|].
    apply (Rsum_square_pos (fun w => tfidf_weight w (w0 :: ws) docs) V w0).
    - apply HV, in_or_app. right. now left.
    - apply tfidf_weight_pos. now left. }
  split; [assumption|]. split; [assumption|].
  unfold tfidf_similarity.
  assert (truthy (PyStr t1) = true) as -> by (destruct t1; [now elim H1|reflexivity]).
  assert (truthy (PyStr t2) = true) as -> by (destruct t2; [now elim H2|reflexivity]).
  cbn [negb orb]. rewrite !normalize_text_str. cbn [mbind exc_bind].
  assert (is_nil (str_split (norm t1)) = false) as ->
    by (destruct (str_split (norm t1)); easy).
  assert (is_nil (str_split (norm t2)) = false) as ->
    by (destruct (str_split (norm t2)); easy).
  cbn [orb]. cbv zeta. fold V.
  rewrite zip_with_Rmult_map, !map_map, !float_sum_map.
  change ((if float_eqb (sqrt q1) 0 || float_eqb (sqrt q2) 0
           then Ret 0%R else Ret (dot / (sqrt q1 * sqrt q2))%R)
          = Ret (dot / (sqrt q1 * sqrt q2))%R).
  assert (0 < sqrt q1)%R by (now apply sqrt_lt_R0).
  assert (0 < sqrt q2)%R by (now apply sqrt_lt_R0).
  rewrite (proj2 (float_eqb_false (sqrt q1) 0)) by lra.
  rewrite (proj2 (float_eqb_false (sqrt q2) 0)) by lra.
  reflexivity.
Qed.

Lemma tfidf_similarity_no_words (t1 t2 : ustring) :
  words_of t1 = [] \/ words_of t2 = [] ->
  tfidf_similarity (PyStr t1) (PyStr t2) = Ret 0%R.
Proof.
  intros H. unfold tfidf_similarity, words_of in *.
  destruct (negb (truthy (PyStr t1)) || negb (truthy (PyStr t2))); [reflexivity|].
  rewrite !normalize_text_str. cbn [mbind exc_bind].
  destruct H as [-> | ->]; cbn [is_nil orb]; [reflexivity|].
  now rewrite orb_true_r.
Qed.

End TfidfWords.

(** X8: on two strings the TF-IDF similarity never raises and is never
    negative, and it is 0.0 when the two texts have no word in common. *)
Theorem tfidf_similarity_nonneg_disjoint {rt : PyRuntime} (text1 text2 : ustring) :
  exists v,
    tfidf_similarity (PyStr text1) (PyStr text2) = Ret v
    /\ (0 <= v)%R
    /\ ((forall w, In w (words_of text1) -> ~ In w (words_of text2)) -> v = 0%R).
Proof.
  destruct (words_of text1) as [|a1 r1] eqn:E1.
  { exists 0%R. rewrite tfidf_similarity_no_words by auto. repeat split; lra. }
  destruct (words_of text2) as [|a2 r2] eqn:E2.
  { exists 0%R. rewrite tfidf_similarity_no_words by auto. repeat split; lra. }
  assert (words_of text1 <> []) as H1 by (rewrite E1; discriminate).
  assert (words_of text2 <> []) as H2 by (rewrite E2; discriminate).
  rewrite <- E1, <- E2.
  destruct (tfidf_similarity_words text1 text2 H1 H2) as (Hq1 & Hq2 & Hcos).
  cbv zeta in *.
  set (V := elements (list_to_set (words_of text1 ++ words_of text2) : gset ustring))
    in *.
  set (docs := [words_of text1; words_of text2]) in *.
  set (h := fun w => (tfidf_weight w (words_of text1) docs
                      * tfidf_weight w (words_of text2) docs)%R) in *.
  assert (forall w, 0 <= h w)%R as Hpos.
  { intros w. apply Rmult_le_pos; apply tfidf_weight_nonneg; assumption. }
  assert (0 < sqrt _ * sqrt _)%R as Hn
    by (apply Rmult_lt_0_compat; apply sqrt_lt_R0; [exact Hq1|exact Hq2]).
  eexists. split; [exact Hcos|]. split.
  - apply Rmult_le_pos; [now apply Rsum_nonneg|].
    left. apply Rinv_0_lt_compat. exact Hn.
  - intros Hdis.
    rewrite (proj2 (Rsum_zero_iff h V Hpos)); [unfold Rdiv; apply Rmult_0_l|].
    intros w _. unfold h, tfidf_weight.
    destruct (list_count w (words_of text1)) eqn:C1.
    { simpl. unfold Rdiv. now rewrite !Rmult_0_l. }
    destruct (list_count w (words_of text2)) eqn:C2.
    { cbn [INR]. unfold Rdiv. rewrite (Rmult_0_l (/ _)), (Rmult_0_l (ln _ + 1)).
      apply Rmult_0_r. }
    exfalso. apply (Hdis w); apply list_count_pos; lia.
Qed.

(** ** Levenshtein similarity: symmetry and bounds *)

Section NormalizeLength.
Context {rt : PyRuntime}.

Lemma lstrip_length (l : ustring) : length (lstrip l) <= length l.
Proof.
  destruct (lstrip_suffix l) as [pre E]. rewrite E at 2. rewrite length_app. lia.
Qed.

Lemma strip_length (l : ustring) : length (strip l) <= length l.
Proof.
  unfold strip, rstrip. rewrite length_rev.
  etransitivity; [apply lstrip_length|]. rewrite length_rev. apply lstrip_length.
Qed.

Lemma re_sub_spaces_length (l : ustring) :
  forall b, length (re_sub_spaces b l) <= length l.
Proof.
  induction l as [|c l IH]; intros b; simpl; [lia|].
  destruct (re_space c); [destruct b|]; simpl;
    match goal with |- context [re_sub_spaces ?b' l] => specialize (IH b') end; lia.
Qed.

(** Normalisation adds no character to the lower-cased, decomposed
    text. *)
Lemma normalize_str_length (s : ustring) :
  length (normalize_str s) <= length (unicodedata_nfd (str_lower s)).
Proof.
  unfold normalize_str.
  etransitivity; [apply strip_length|].
  etransitivity; [apply re_sub_spaces_length|].
  unfold re_sub_special. rewrite length_map. apply filter_length_le.
Qed.

Lemma norm_length (s : ustring) :
  length (unicodedata_nfd (str_lower s)) <= length s ->
  length (norm s) <= length s.
Proof.
  intros H. destruct s as [|c s]; [simpl; lia|].
  unfold norm. etransitivity; [apply normalize_str_length|assumption].
Qed.

End NormalizeLength.

(** X10: on two strings the Levenshtein similarity never raises, is the
    same whichever text comes first, is at most 1.0, and is exactly 1.0
    when the two texts are the same. It is at least 0.0 when
    lower-casing and decomposing makes neither text longer; otherwise
    the distance between the normalised texts can exceed the length the
    code divides by. *)
Theorem levenshtein_similarity_symmetric_bounded {rt : PyRuntime}
    (text1 text2 : ustring) :
  exists v,
    levenshtein_similarity (PyStr text1) (PyStr text2) = Ret v
    /\ levenshtein_similarity (PyStr text2) (PyStr text1) = Ret v
    /\ (v <= 1)%R
    /\ (text1 = text2 -> v = 1%R)
    /\ (length (unicodedata_nfd (str_lower text1)) <= length text1 ->
        length (unicodedata_nfd (str_lower text2)) <= length text2 ->
        (0 <= v)%R).
Proof.
  destruct text1 as [|c1 r1], text2 as [|c2 r2].
  - exists 1%R. repeat split; try reflexivity; intros; lra.
  - exists 0%R. repeat split; try reflexivity; try easy; intros; lra.
  - exists 0%R. repeat split; try reflexivity; try easy; intros; lra.
  - set (t1 := c1 :: r1). set (t2 := c2 :: r2).
    rewrite (levenshtein_similarity_str t1 t2), (levenshtein_similarity_str t2 t1)
      by easy.
    rewrite (levenshtein_dp_sym (norm t2) (norm t1)), (Nat.max_comm (length t2)).
    eexists. split; [reflexivity|]. split; [reflexivity|].
    assert (0 < INR (Nat.max (length t1) (length t2)))%R as Hlen
      by (apply lt_0_INR; simpl; lia).
    pose proof (pos_INR (levenshtein_dp (norm t1) (norm t2))) as Hd.
    assert (0 <= INR (levenshtein_dp (norm t1) (norm t2))
                 / INR (Nat.max (length t1) (length t2)))%R as Hq.
    { apply Rmult_le_pos; [assumption|]. left. now apply Rinv_0_lt_compat. }
    split; [lra|]. split.
    + intros E. rewrite <- E in *.
      rewrite levenshtein_dp_refl.
      simpl INR at 1. unfold Rdiv. lra.
    + intros H1 H2.
      pose proof (levenshtein_dp_upper (norm t1) (norm t2)) as Hmax.
      pose proof (norm_length t1 H1). pose proof (norm_length t2 H2).
      assert (levenshtein_dp (norm t1) (norm t2)
              <= Nat.max (length t1) (length t2)) as Hle by lia.
      apply le_INR in Hle.
      assert (INR (levenshtein_dp (norm t1) (norm t2))
              / INR (Nat.max (length t1) (length t2)) <= 1)%R; [|lra].
      apply Rmult_le_reg_r with (INR (Nat.max (length t1) (length t2)));
        [assumption|].
      unfold Rdiv. rewrite Rmult_assoc, Rinv_l by lra. lra.
Qed.

(** ** Words and keywords *)

Section WordFacts.
Context {rt : PyRuntime}.

Lemma split_ws_words (text : ustring) :
  forall cur,
    (forall c, In c cur -> re_space c = false) ->
    forall w, In w (split_ws cur text) ->
      w <> [] /\ forall c, In c w -> re_space c = false /\ (In c cur \/ In c text).
Proof.
  induction text as [|c rest IH]; intros cur Hcur w Hw; simpl in Hw.
  - destruct cur as [|x cur]; [easy|]. destruct Hw as [<-|[]].
    split; [discriminate|]. intros c Hc. split; [now apply Hcur|now left].
  - destruct (re_space c) eqn:Ec.
    + destruct cur as [|x cur].
      * destruct (IH [] ltac:(easy) w Hw) as [Hne Hch]. split; [assumption|].
        intros c' Hc'. destruct (Hch c' Hc') as [? [[]|?]]. split; [assumption|].
        right. now right.
      * destruct Hw as [<-|Hw].
        -- split; [discriminate|]. intros c' Hc'. split; [now apply Hcur|now left].
        -- destruct (IH [] ltac:(easy) w Hw) as [Hne Hch]. split; [assumption|].
           intros c' Hc'. destruct (Hch c' Hc') as [? [[]|?]]. split; [assumption|].
           right. now right.
    + assert (forall c', In c' (cur ++ [c]) -> re_space c' = false) as Hcur'.
      { intros c' Hc'. apply in_app_or in Hc' as [?|[<-|[]]]; auto. }
      destruct (IH (cur ++ [c]) Hcur' w Hw) as [Hne Hch]. split; [assumption|].
      intros c' Hc'. destruct (Hch c' Hc') as [Hsp Hin]. split; [assumption|].
      destruct Hin as [Hin|Hin]; [|right; now right].
      apply in_app_or in Hin as [?|[<-|[]]]; [now left|right; now left].
Qed.

(** The words of a text are non-empty and consist of characters of the
    normalised text that are not whitespace. *)
Lemma words_of_chars (text w : ustring) :
  In w (words_of text) ->
  w <> [] /\ forall c, In c w -> re_space c = false /\ In c (norm text).
Proof.
  intros Hw. destruct (split_ws_words (norm text) [] ltac:(easy) w Hw) as [Hne Hch].
  split; [assumption|]. intros c Hc. destruct (Hch c Hc) as [? [[]|?]]. auto.
Qed.

End WordFacts.

(** X11: on a string [extract_keywords] never raises, and the set it
    returns holds exactly the words of the normalised text that have at
    least [min_length] characters and are not stop words; no keyword is
    empty or contains whitespace. *)
Theorem extract_keywords_spec {rt : PyRuntime} (text : ustring) (min_length : Z) :
  exists K,
    extract_keywords (PyStr text) min_length = Ret K
    /\ (forall w, w ∈ K <->
                  In w (words_of text)
                  /\ (min_length <= Z.of_nat (length w))%Z
                  /\ w ∉ stop_words)
    /\ (forall w, w ∈ K -> w <> [] /\ forall c, In c w -> re_space c = false).
Proof.
  assert (forall w,
            w ∈ (list_to_set
                   (List.filter
                      (fun w => (min_length <=? Z.of_nat (length w))%Z
                                && negb (is_stop_word w))
                      (words_of text)) : gset ustring)
            <-> In w (words_of text)
                /\ (min_length <= Z.of_nat (length w))%Z /\ w ∉ stop_words) as Hchar.
  { intros w. rewrite elem_of_list_to_set, list_elem_of_In, filter_In.
    rewrite andb_true_iff, negb_true_iff, Z.leb_le.
    unfold is_stop_word. rewrite bool_decide_eq_false. tauto. }
  destruct text as [|c0 r0].
  - exists ∅. split; [reflexivity|]. split.
    + intros w. split; [intros Hw; now apply not_elem_of_empty in Hw|].
      intros [[] _].
    + intros w Hw. now apply not_elem_of_empty in Hw.
  - eexists. split; [reflexivity|]. split; [exact Hchar|].
    intros w Hw. apply Hchar in Hw as [Hw _].
    destruct (words_of_chars _ w Hw) as [Hne Hch]. split; [assumption|].
    intros c Hc. now apply Hch.
Qed.

(** ** The combined score: titles *)

(** X12: titles can only raise the combined score: on strings, the
    score computed with titles is at least the score computed from the
    two texts alone. *)
Theorem combined_similarity_title_bonus {rt : PyRuntime}
    (text1 text2 title1 title2 : ustring) :
  exists v v0,
    combined_similarity (PyStr text1) (PyStr text2) (PyStr title1) (PyStr title2)
    = Ret v
    /\ combined_similarity (PyStr text1) (PyStr text2) (PyStr []) (PyStr [])
       = Ret v0
    /\ (v0 <= v)%R.
Proof.
  destruct text1 as [|c1 r1].
  { exists 0%R, 0%R. repeat split; try reflexivity; lra. }
  destruct text2 as [|c2 r2].
  { exists 0%R, 0%R. repeat split; try reflexivity; lra. }
  set (text1 := c1 :: r1). set (text2 := c2 :: r2).
  destruct (combined_similarity_formula text1 text2 title1 title2)
    as (sq & cs & k1 & k2 & ts & Hsq & Hcs & Hk1 & Hk2 & Hts & Hv); try easy.
  destruct (combined_similarity_formula text1 text2 [] [])
    as (sq' & cs' & k1' & k2' & ts' & Hsq' & Hcs' & Hk1' & Hk2' & Hts' & Hv0);
    try easy.
  rewrite Hsq in Hsq'. rewrite Hcs in Hcs'. rewrite Hk1 in Hk1'. rewrite Hk2 in Hk2'.
  injection Hsq' as <-. injection Hcs' as <-. injection Hk1' as <-.
  injection Hk2' as <-. simpl in Hts'. subst ts'.
  eexists _, _. split; [exact Hv|]. split; [exact Hv0|].
  assert (0 <= ts)%R.
  { destruct (is_nil title1 || is_nil title2); [lra|].
    now apply sequence_similarity_nonneg in Hts. }
  apply Rle_min_compat_l. lra.
Qed.

(** ** The worker: well-formed, malformed and missing texts *)

Lemma falsy_cases (v : pyval) :
  truthy v = false -> v = PyNone \/ v = PyStr [] \/ v = PyInt 0.
Proof.
  destruct v as [|[|c s]|n]; simpl; auto; try discriminate.
  intros H. apply negb_false_iff, Z.eqb_eq in H. subst. auto.
Qed.

Section WorkerMore.
Context {rt : PyRuntime}.

Lemma calculate_metrics_inv (id1 text1 title1 id2 text2 title2 : pyval)
    (r : sim_result) :
  calculate_metrics (id1, text1, title1, id2, text2, title2) = Ret r ->
  exists m, r = Scored id1 id2 m
            /\ combined_similarity text1 text2 title1 title2 = Ret (combined m).
Proof.
  unfold calculate_metrics.
  destruct (sequence_similarity text1 text2); cbn [mbind exc_bind]; [|discriminate].
  destruct (cosine_similarity text1 text2); cbn [mbind exc_bind]; [|discriminate].
  destruct (extract_keywords text1 3); cbn [mbind exc_bind]; [|discriminate].
  destruct (extract_keywords text2 3); cbn [mbind exc_bind]; [|discriminate].
  destruct (levenshtein_similarity text1 text2); cbn [mbind exc_bind]; [|discriminate].
  destruct (tfidf_similarity text1 text2); cbn [mbind exc_bind]; [|discriminate].
  destruct (combined_similarity text1 text2 title1 title2) as [cb|];
    cbn [mbind exc_bind]; [|discriminate].
  intros [= <-]. eexists. split; reflexivity.
Qed.

(** Whatever the worker returns has a combined score between 0 and 1. *)
Lemma worker_combined_range (args : task) :
  (0 <= result_combined (_calculate_single_similarity args) <= 1)%R.
Proof.
  destruct args as [[[[[id1 text1] title1] id2] text2] title2].
  unfold _calculate_single_similarity.
  destruct (calculate_metrics _) as [r|e] eqn:E; [|simpl; lra].
  apply calculate_metrics_inv in E as (m & -> & Hm). simpl.
  now apply combined_similarity_range in Hm.
Qed.

End WorkerMore.

(** X14: when the two texts and the two titles are strings, the worker
    never produces an error entry: it returns a computed result whose
    fields are the values of the individual metrics and whose combined
    score lies between 0 and 1. *)
Theorem worker_on_strings {rt : PyRuntime} (id1 id2 : pyval)
    (text1 title1 text2 title2 : ustring) :
  exists m keywords1 keywords2,
    _calculate_single_similarity
      (id1, PyStr text1, PyStr title1, id2, PyStr text2, PyStr title2)
    = Scored id1 id2 m
    /\ sequence_similarity (PyStr text1) (PyStr text2) = Ret (sequence m)
    /\ cosine_similarity (PyStr text1) (PyStr text2) = Ret (cosine m)
    /\ extract_keywords (PyStr text1) 3 = Ret keywords1
    /\ extract_keywords (PyStr text2) 3 = Ret keywords2
    /\ jaccard m = jaccard_similarity keywords1 keywords2
    /\ levenshtein_similarity (PyStr text1) (PyStr text2) = Ret (levenshtein m)
    /\ tfidf_similarity (PyStr text1) (PyStr text2) = Ret (tfidf m)
    /\ combined_similarity (PyStr text1) (PyStr text2) (PyStr title1) (PyStr title2)
       = Ret (combined m)
    /\ (0 <= combined m <= 1)%R.
Proof.
  destruct (cosine_similarity_str text1 text2) as [cs Hcs].
  destruct (extract_keywords_str text1 3) as [k1 Hk1].
  destruct (extract_keywords_str text2 3) as [k2 Hk2].
  destruct (levenshtein_similarity_total text1 text2) as [lv Hlv].
  destruct (tfidf_similarity_str text1 text2) as [tf Htf].
  destruct (combined_similarity_str text1 text2 title1 title2) as [cb Hcb].
  eexists {| sequence := _; cosine := cs; jaccard := jaccard_similarity k1 k2;
             levenshtein := lv; tfidf := tf; combined := cb |}, k1, k2.
  unfold _calculate_single_similarity, calculate_metrics.
  rewrite sequence_similarity_str, Hcs, Hk1, Hk2, Hlv, Htf, Hcb.
  cbn [mbind exc_bind sequence cosine jaccard levenshtein tfidf combined].
  repeat (split; [reflexivity|]).
  now apply combined_similarity_range in Hcb.
Qed.

(** X15: an integer other than 0 in the place of one of the two texts
    makes the worker return an error entry, whatever the other fields
    are: the ids are kept, the message is the one of the AttributeError,
    and the combined score is 0.0. *)
Theorem worker_integer_text {rt : PyRuntime} (n : Z)
    (id1 id2 other title1 title2 : pyval) :
  n <> 0%Z ->
  let failed := Failed id1 id2 "'int' object has no attribute 'lower'" in
  _calculate_single_similarity (id1, PyInt n, title1, id2, other, title2) = failed
  /\ _calculate_single_similarity (id1, other, title1, id2, PyInt n, title2) = failed
  /\ result_combined failed = 0%R.
Proof.
  intros Hn failed.
  assert (truthy (PyInt n) = true) as Ht
    by (simpl; now rewrite (proj2 (Z.eqb_neq n 0) Hn)).
  assert (normalize_text (PyInt n)
          = Raise (AttributeError "'int' object has no attribute 'lower'")) as Hnorm
    by (unfold normalize_text; now rewrite Ht).
  unfold _calculate_single_similarity, calculate_metrics, sequence_similarity,
    cosine_similarity, extract_keywords.
  rewrite Ht, Hnorm.
  split; [|split; [|reflexivity]].
  - destruct (truthy other); cbn [negb orb mbind exc_bind exn_str]; reflexivity.
  - destruct other as [|[|c s]|m].
    + reflexivity.
    + reflexivity.
    + reflexivity.
    + unfold normalize_text, truthy.
      destruct (m =? 0)%Z; reflexivity.
Qed.

Lemma worker_integer_text_witness :
  let rt := AsciiRuntime.ascii_runtime in
  let failed := Failed (PyInt 1) (PyInt 2) "'int' object has no attribute 'lower'" in
  _calculate_single_similarity
    (PyInt 1, PyInt 7, PyNone, PyInt 2, PyStr (u "rede"), PyNone) = failed
  /\ _calculate_single_similarity
       (PyInt 1, PyStr (u "rede"), PyNone, PyInt 2, PyInt 7, PyNone) = failed
  /\ result_combined failed = 0%R.
Proof.
  intros rt.
  apply (worker_integer_text (rt := rt) 7 (PyInt 1) (PyInt 2) (PyStr (u "rede"))
           PyNone PyNone).
  lia.
Defined.

(** X16: a missing text or title ([None], or the integer 0) is treated
    as the empty string: in each of the four text positions it gives
    the same result as [""]. *)
Theorem worker_falsy_as_empty {rt : PyRuntime} (v id1 id2 a b c : pyval) :
  truthy v = false ->
  _calculate_single_similarity (id1, v, a, id2, b, c)
  = _calculate_single_similarity (id1, PyStr [], a, id2, b, c)
  /\ _calculate_single_similarity (id1, a, v, id2, b, c)
     = _calculate_single_similarity (id1, a, PyStr [], id2, b, c)
  /\ _calculate_single_similarity (id1, a, b, id2, v, c)
     = _calculate_single_similarity (id1, a, b, id2, PyStr [], c)
  /\ _calculate_single_similarity (id1, a, b, id2, c, v)
     = _calculate_single_similarity (id1, a, b, id2, c, PyStr []).
Proof.
  intros Hv.
  unfold _calculate_single_similarity, calculate_metrics, sequence_similarity,
    cosine_similarity, extract_keywords, levenshtein_similarity,
    tfidf_similarity, combined_similarity.
  rewrite !Hv. change (truthy (PyStr [])) with false.
  cbn [negb orb andb]. rewrite ?orb_true_r, ?andb_false_r. cbn [negb orb andb].
  repeat split; reflexivity.
Qed.

Lemma worker_falsy_as_empty_witness :
  let rt := AsciiRuntime.ascii_runtime in
  let a := PyStr (u "rede") in
  _calculate_single_similarity (PyInt 1, PyNone, a, PyInt 2, a, a)
  = _calculate_single_similarity (PyInt 1, PyStr [], a, PyInt 2, a, a)
  /\ _calculate_single_similarity (PyInt 1, a, PyNone, PyInt 2, a, a)
     = _calculate_single_similarity (PyInt 1, a, PyStr [], PyInt 2, a, a)
  /\ _calculate_single_similarity (PyInt 1, a, a, PyInt 2, PyNone, a)
     = _calculate_single_similarity (PyInt 1, a, a, PyInt 2, PyStr [], a)
  /\ _calculate_single_similarity (PyInt 1, a, a, PyInt 2, a, PyNone)
     = _calculate_single_similarity (PyInt 1, a, a, PyInt 2, a, PyStr []).
Proof.
  intros rt a.
  apply (worker_falsy_as_empty (rt := rt) PyNone (PyInt 1) (PyInt 2) a a a).
  reflexivity.
Defined.

(** ** The ranker: caps, emptiness, completion order *)

Lemma NoDup_map_injective {A B} (f : A -> B) (l : list A) (x y : A) :
  List.NoDup (map f l) -> In x l -> In y l -> f x = f y -> x = y.
Proof.
  induction l as [|a l IH]; simpl; [easy|].
  intros Hnd Hx Hy E. apply NoDup_cons_iff in Hnd as [Hna Hnd].
  destruct Hx as [->|Hx], Hy as [->|Hy]; auto.
  - exfalso. apply Hna. rewrite E. now apply in_map.
  - exfalso. apply Hna. rewrite <- E. now apply in_map.
Qed.

(** Two lists sorted by score that hold the same entries, all with
    different scores, are the same list. *)
Lemma sorted_perm_unique (l1 : list sim_result) :
  forall l2,
    StronglySorted score_ge l1 -> StronglySorted score_ge l2 ->
    Permutation l1 l2 -> List.NoDup (map result_combined l1) -> l1 = l2.
Proof.
  induction l1 as [|x r1 IH]; intros l2 S1 S2 Hp Hnd.
  - now apply Permutation_nil in Hp.
  - destruct l2 as [|y r2]; [now apply Permutation_sym, Permutation_nil in Hp|].
    assert (x = y) as ->.
    { assert (In x (y :: r2)) as Hx by (apply (Permutation_in _ Hp); now left).
      assert (In y (x :: r1)) as Hy
        by (apply (Permutation_in _ (Permutation_sym Hp)); now left).
      destruct Hx as [->|Hx]; [reflexivity|].
      destruct Hy as [->|Hy]; [reflexivity|].
      inversion S1 as [|? ? _ F1]; inversion S2 as [|? ? _ F2]; subst.
      rewrite List.Forall_forall in F1, F2.
      specialize (F1 y Hy). specialize (F2 x Hx). unfold score_ge in *.
      apply (NoDup_map_injective result_combined (x :: r1));
        [assumption|now left|now right|lra]. }
    f_equal. apply IH.
    + now inversion S1.
    + now inversion S2.
    + now apply Permutation_cons_inv in Hp.
    + now inversion Hnd.
Qed.

Lemma filter_perm {A} (p : A -> bool) (l l' : list A) :
  Permutation l l' -> Permutation (List.filter p l) (List.filter p l').
Proof.
  induction 1 as [|x l l' _ IH|x y l|l l' l'' _ IH1 _ IH2]; simpl.
  - reflexivity.
  - destruct (p x); [now constructor|assumption].
  - destruct (p x), (p y); try reflexivity. apply perm_swap.
  - now transitivity (List.filter p l').
Qed.

Section RankerMore.
Context {rt : PyRuntime}.


Lemma arrived_length (self : SimilarityService) (env : pool_env)
    (args_list : list task) :
  length (arrived self env args_list) <= length args_list.
Proof.
  pose proof (arrived_count self env args_list (fun _ => true)) as H.
  rewrite !(filter_fixed (fun _ => true)) in H by easy.
  now rewrite length_map in H.
Qed.

(** With no broken future the pool delivers the results of all tasks,
    in some order. *)
Lemma arrived_perm (self : SimilarityService) (env : pool_env)
    (args_list : list task) :
  (forall i, future_ok self env i) ->
  Permutation (arrived self env args_list)
              (map _calculate_single_similarity args_list).
Proof.
  unfold future_ok, arrived. intros Hok.
  destruct (start_pool self env) as [run|]; [|reflexivity].
  etransitivity; [apply Permutation_flat_map, as_completed_perm|].
  generalize 0 as start.
  induction args_list as [|a l IH]; intros start; simpl; [reflexivity|].
  rewrite Hok. simpl. constructor. apply IH.
Qed.


Lemma candidates_kept_length (self : SimilarityService) (cands : list ticket) :
  length (candidates_kept self cands) <= length cands.
Proof.
  unfold candidates_kept. destruct (_ <? _)%Z; [|lia].
  apply prefix_length, py_take_prefix_self.
Qed.

(** The entries of the answer come from accepted worker results. *)
Lemma find_similar_tickets_In (self : SimilarityService) (env : pool_env)
    (target : ticket) (cands : list ticket) (threshold : R) (max_results : Z)
    (r : sim_result) :
  In r (find_similar_tickets self env target cands threshold max_results) ->
  accepted threshold r = true
  /\ exists c, In c cands
               /\ r = _calculate_single_similarity
                        (candidate_args (dict_get target "content")
                                        (dict_get target "title") c).
Proof.
  rewrite find_similar_tickets_unfold. destruct (is_nil cands); [easy|].
  intros Hr. apply py_take_In, sort_by_combined_In, filter_In in Hr as [Hr Hacc].
  split; [assumption|].
  apply arrived_In in Hr as (args & Hargs & ->).
  apply in_map_iff in Hargs as (c & <- & Hc).
  exists c. split; [now apply candidates_kept_In in Hc|reflexivity].
Qed.

End RankerMore.



(** X18: asking for more results never changes the first ones: for
    0 <= k <= k' the answer with max_results = k is the beginning of the
    answer with max_results = k'. *)
Theorem find_similar_tickets_max_results_prefix {rt : PyRuntime}
    (self : SimilarityService) (env : pool_env) (target : ticket)
    (cands : list ticket) (threshold : R) (k k' : Z) :
  (0 <= k <= k')%Z ->
  find_similar_tickets self env target cands threshold k
    `prefix_of` find_similar_tickets self env target cands threshold k'.
Proof.
  intros Hk. rewrite !find_similar_tickets_unfold.
  destruct (is_nil cands); [reflexivity|].
  unfold py_take.
  destruct (Z.leb_spec 0 k); [|lia]. destruct (Z.leb_spec 0 k'); [|lia].
  match goal with
  | |- firstn _ ?l `prefix_of` _ =>
      rewrite <- (app_nil_r l) at 2; apply firstn_prefix_mono; lia
  end.
Qed.

Lemma find_similar_tickets_max_results_prefix_witness :
  find_similar_tickets (rt := AsciiRuntime.ascii_runtime) sample_service sample_pool
    (printer_ticket 1) [printer_ticket 2; printer_ticket 3] 0.3%R 1
    `prefix_of`
  find_similar_tickets (rt := AsciiRuntime.ascii_runtime) sample_service sample_pool
    (printer_ticket 1) [printer_ticket 2; printer_ticket 3] 0.3%R 5.
Proof.
  apply (find_similar_tickets_max_results_prefix (rt := AsciiRuntime.ascii_runtime)).
  lia.
Defined.

(** X19: whatever the inputs, the answer of [find_similar_tickets] holds
    no error entry, every combined score in it lies between 0 and 1,
    there are no more entries than candidates, and a threshold above 1.0
    leaves nothing. *)
Theorem find_similar_tickets_entries {rt : PyRuntime} (self : SimilarityService)
    (env : pool_env) (target : ticket) (cands : list ticket) (threshold : R)
    (max_results : Z) :
  let out := find_similar_tickets self env target cands threshold max_results in
  (forall r, In r out ->
             has_error r = false /\ (0 <= result_combined r <= 1)%R)
  /\ length out <= length cands
  /\ ((1 < threshold)%R -> out = []).
Proof.
  intros out.
  assert (forall r, In r out ->
            has_error r = false /\ (0 <= result_combined r <= 1)%R
            /\ (threshold <= result_combined r)%R) as Hin.
  { intros r Hr. apply find_similar_tickets_In in Hr as [Hacc (c & _ & ->)].
    apply accepted_spec in Hacc as [He Ht]. split; [assumption|].
    split; [apply worker_combined_range|assumption]. }
  split; [|split].
  - intros r Hr. destruct (Hin r Hr) as (? & ? & _). auto.
  - unfold out. rewrite find_similar_tickets_unfold.
    destruct (is_nil cands); [simpl; lia|].
    etransitivity; [apply prefix_length, py_take_prefix_self|].
    rewrite sort_by_combined_length.
    etransitivity; [apply filter_length_le|].
    etransitivity; [apply arrived_length|].
    rewrite length_map. apply candidates_kept_length.
  - intros Ht. destruct out as [|r rest] eqn:E; [reflexivity|].
    destruct (Hin r (or_introl eq_refl)) as (_ & ? & ?). lra.
Qed.

(** X20: with a threshold above 0, a target without content (missing,
    [None] or empty) matches nothing, and every returned entry belongs
    to a candidate that has content. *)
Theorem find_similar_tickets_needs_content {rt : PyRuntime}
    (self : SimilarityService) (env : pool_env) (target : ticket)
    (cands : list ticket) (threshold : R) (max_results : Z) :
  (0 < threshold)%R ->
  let out := find_similar_tickets self env target cands threshold max_results in
  (truthy (dict_get target "content") = false -> out = [])
  /\ (forall r, In r out ->
        exists c, In c cands /\ result_id2 r = dict_get c "id"
                  /\ truthy (dict_get c "content") = true).
Proof.
  intros Ht out.
  assert (forall r, In r out ->
            exists c, In c cands /\ result_id2 r = dict_get c "id"
                      /\ truthy (dict_get target "content") = true
                      /\ truthy (dict_get c "content") = true) as Hin.
  { intros r Hr. apply find_similar_tickets_In in Hr as [Hacc (c & Hc & ->)].
    exists c. split; [assumption|].
    pose proof (worker_ids (candidate_args (dict_get target "content")
                                           (dict_get target "title") c)) as Hids.
    unfold candidate_args in *. destruct Hids as [_ Hid2].
    split; [exact Hid2|].
    apply accepted_spec in Hacc as [He Hthr].
    unfold _calculate_single_similarity in *.
    destruct (calculate_metrics _) as [r|e] eqn:E; [|discriminate].
    apply calculate_metrics_inv in E as (m & -> & Hm). simpl in Hthr.
    unfold combined_similarity in Hm.
    destruct (truthy (dict_get target "content")),
             (truthy (dict_get c "content")); cbn [negb orb] in Hm;
      try (injection Hm as Hm; lra).
    split; reflexivity. }
  split.
  - intros Hfalsy. destruct out as [|r rest] eqn:E; [reflexivity|].
    destruct (Hin r (or_introl eq_refl)) as (c & _ & _ & Htrue & _). congruence.
  - intros r Hr. destruct (Hin r Hr) as (c & ? & ? & _ & ?). eauto.
Qed.

Lemma find_similar_tickets_needs_content_witness :
  let out :=
    find_similar_tickets (rt := AsciiRuntime.ascii_runtime) sample_service
      sample_pool {[ "id" := PyInt 1; "content" := PyNone ]}
      [printer_ticket 2; printer_ticket 3] 0.3%R 10 in
  (truthy (dict_get ({[ "id" := PyInt 1; "content" := PyNone ]} : ticket) "content")
   = false -> out = [])
  /\ (forall r, In r out ->
        exists c, In c [printer_ticket 2; printer_ticket 3]
                  /\ result_id2 r = dict_get c "id"
                  /\ truthy (dict_get c "content") = true).
Proof.
  apply (find_similar_tickets_needs_content (rt := AsciiRuntime.ascii_runtime)).
  lra.
Defined.

(** X21: when no future is broken and the accepted results all have
    different combined scores, the order in which the pool completes
    its futures does not matter: the answer is the one of the
    sequential loop. *)
Theorem find_similar_tickets_order_independent {rt : PyRuntime}
    (self : SimilarityService) (env : pool_env) (target : ticket)
    (cands : list ticket) (threshold : R) (max_results : Z) :
  (forall i, future_ok self env i) ->
  List.NoDup (map result_combined
           (List.filter (accepted threshold)
              (map (fun c => _calculate_single_similarity
                                (candidate_args (dict_get target "content")
                                                (dict_get target "title") c))
                   (candidates_kept self cands)))) ->
  find_similar_tickets self env target cands threshold max_results
  = find_similar_tickets self PoolUnavailable target cands threshold max_results.
Proof.
  intros Hok Hnd. rewrite !find_similar_tickets_unfold.
  destruct (is_nil cands); [reflexivity|]. f_equal.
  set (args := map (candidate_args _ _) _).
  assert (arrived self PoolUnavailable args
          = map _calculate_single_similarity args) as ->
    by (unfold arrived, start_pool; now destruct (_ <=? _)%Z).
  assert (map (fun c => _calculate_single_similarity
                          (candidate_args (dict_get target "content")
                                          (dict_get target "title") c))
              (candidates_kept self cands)
          = map _calculate_single_similarity args) as E
    by (unfold args; now rewrite map_map).
  rewrite E in Hnd. clear E.
  symmetry. apply sorted_perm_unique.
  - apply sort_by_combined_sorted.
  - apply sort_by_combined_sorted.
  - rewrite !sort_by_combined_perm. apply filter_perm.
    symmetry. now apply arrived_perm.
  - eapply Permutation_NoDup; [|exact Hnd].
    apply Permutation_map. symmetry. apply sort_by_combined_perm.
Qed.

Lemma find_similar_tickets_order_independent_witness :
  find_similar_tickets (rt := AsciiRuntime.ascii_runtime) sample_service sample_pool
    (printer_ticket 1) [printer_ticket 2; blank_ticket 3] 0%R 10
  = find_similar_tickets (rt := AsciiRuntime.ascii_runtime) sample_service
      PoolUnavailable (printer_ticket 1) [printer_ticket 2; blank_ticket 3] 0%R 10.
Proof.
  apply (find_similar_tickets_order_independent (rt := AsciiRuntime.ascii_runtime)).
  - intros i. reflexivity.
  - set (rt := AsciiRuntime.ascii_runtime).
    change (candidates_kept sample_service [printer_ticket 2; blank_ticket 3])
      with [printer_ticket 2; blank_ticket 3].
    cbn [map].
    change (candidate_args (dict_get (printer_ticket 1) "content")
              (dict_get (printer_ticket 1) "title") (printer_ticket 2))
      with (PyInt 2, PyStr (u "Problema com impressora HP"), PyStr (u "Impressora"),
            PyInt 2, PyStr (u "Problema com impressora HP"), PyStr (u "Impressora")).
    change (candidate_args (dict_get (printer_ticket 1) "content")
              (dict_get (printer_ticket 1) "title") (blank_ticket 3))
      with (PyInt 3, PyStr (u "Problema com impressora HP"), PyStr (u "Impressora"),
            PyInt 3, PyStr [], PyStr (u "Sem texto")).
    destruct (calculate_metrics_str (PyInt 2) (PyInt 2)
                (u "Problema com impressora HP") (u "Impressora")
                (u "Problema com impressora HP") (u "Impressora"))
      as (m1 & Hm1 & Hc1).
    destruct (calculate_metrics_str (PyInt 3) (PyInt 3)
                (u "Problema com impressora HP") (u "Impressora")
                [] (u "Sem texto"))
      as (m2 & Hm2 & Hc2).
    unfold _calculate_single_similarity. rewrite Hm1, Hm2.
    apply combined_similarity_same_text in Hc1; [|vm_compute; discriminate].
    assert (combined m2 = 0%R) as Hz by (injection Hc2 as <-; reflexivity).
    cbn [List.filter].
    rewrite !(proj2 (accepted_spec 0 _))
      by (split; [reflexivity|cbn [result_combined]; lra]).
    cbn [map result_combined].
    apply List.NoDup_cons.
    + intros [E|[]]. lra.
    + apply List.NoDup_cons; [intros []|apply List.NoDup_nil].
Defined.

(** ** The similarity matrix *)


Lemma ticket_pairs_length (tickets : list ticket) :
  2 * length (ticket_pairs tickets) = length tickets * (length tickets - 1).
Proof.
  unfold ticket_pairs. set (n := length tickets).
  assert (forall m a, a + m = n ->
            2 * length (flat_map
                          (fun i => map (pair_args tickets i)
                                        (seq (i + 1) (n - (i + 1))))
                          (seq a m))
            = m * (m - 1)) as H.
  { induction m as [|m IH]; intros a Ha; [reflexivity|].
    simpl. rewrite length_app, length_map, length_seq.
    specialize (IH (S a) ltac:(lia)). nia. }
  apply (H n 0). lia.
Qed.

Section MatrixMore.
Context {rt : PyRuntime}.

Lemma collect_parallel_arrived (run : pool_run) (threshold : R)
    (args_list : list task) :
  collect_parallel run threshold args_list
  = List.filter (accepted threshold)
      (arrived {| max_workers := 1; max_items := 0 |} (PoolRuns run) args_list).
Proof. unfold collect_parallel, arrived. apply flat_map_guarded_filter. Qed.

Lemma calculate_similarity_matrix_unfold (self : SimilarityService)
    (env : pool_env) (tickets : list ticket) (threshold : R) :
  calculate_similarity_matrix self env tickets threshold
  = if (length tickets <? 2)%nat then []
    else sort_by_combined
           (match start_pool self env with
            | Some run =>
                collect_parallel run threshold
                  (ticket_pairs (candidates_kept self tickets))
            | None => []
            end).
Proof. reflexivity. Qed.


End MatrixMore.


(** X23: the matrix has at most one entry per unordered pair of tickets,
    n(n-1)/2 for the n tickets left by the cap, and it is empty when
    fewer than two tickets are given. *)
Theorem calculate_similarity_matrix_size {rt : PyRuntime}
    (self : SimilarityService) (env : pool_env) (tickets : list ticket)
    (threshold : R) :
  let out := calculate_similarity_matrix self env tickets threshold in
  let n := length (candidates_kept self tickets) in
  2 * length out <= n * (n - 1)
  /\ (length tickets < 2 -> out = []).
Proof.
  intros out n. unfold out. rewrite calculate_similarity_matrix_unfold. split.
  - destruct (_ <? _)%nat; [apply Nat.le_0_l|].
    rewrite sort_by_combined_length.
    destruct (start_pool self env) as [run|]; [|apply Nat.le_0_l].
    rewrite collect_parallel_arrived.
    pose proof (filter_length_le (accepted threshold)
                  (arrived {| max_workers := 1; max_items := 0 |} (PoolRuns run)
                     (ticket_pairs (candidates_kept self tickets)))) as H1.
    pose proof (arrived_length {| max_workers := 1; max_items := 0 |} (PoolRuns run)
                  (ticket_pairs (candidates_kept self tickets))) as H2.
    pose proof (ticket_pairs_length (candidates_kept self tickets)) as H3.
    fold n in H3. lia.
  - intros Hlt. destruct (Nat.ltb_spec (length tickets) 2); [reflexivity|lia].
Qed.

(** ** The caller of the ranker *)

Lemma similarity_view_id (t : ticket) :
  dict_get (similarity_view t) "id" = dict_get_none t "id".
Proof. reflexivity. Qed.

Section CallerMore.
Context {rt : PyRuntime}.

Lemma ticket_find_similar_inv (client : glpi) (self : SimilarityService)
    (env : pool_env) (ticket_id : Z) (kwargs : similar_kwargs)
    (out : list sim_result) :
  TicketService.find_similar_tickets client self env ticket_id kwargs = inr out ->
  (0 < ticket_id)%Z
  /\ exists reference candidates,
       ticket_response client ticket_id = inr reference
       /\ is_Some (reference !! "id")
       /\ list_tickets client (default 200%Z (kw_max_items kwargs)) = inr candidates
       /\ out = find_similar_tickets self env (similarity_view reference)
                  (map similarity_view
                     (List.filter
                        (fun t => py_ne_int (dict_get_none t "id") ticket_id)
                        candidates))
                  (default 0.3%R (kw_threshold kwargs))
                  (default 10%Z (kw_max_results kwargs)).
Proof.
  unfold TicketService.find_similar_tickets, TicketService.get_ticket.
  destruct (Z.leb_spec ticket_id 0) as [|Hpos]; [discriminate|].
  destruct (ticket_response client ticket_id) as [e|reference]; [discriminate|].
  destruct (_ || _) eqn:Hid; [discriminate|].
  destruct (list_tickets client _) as [e|candidates]; [discriminate|].
  intros [= <-]. split; [assumption|].
  exists reference, candidates. repeat split; try reflexivity.
  apply orb_false_iff in Hid as [_ Hid].
  apply negb_false_iff, bool_decide_eq_true in Hid. exact Hid.
Qed.

End CallerMore.

(** X24: [TicketService.find_similar_tickets] returns a list only for a
    positive ticket id for which GLPI answered with an object that has an
    "id"; in every other case it raises, and the similarity service is
    not reached. *)
Theorem ticket_find_similar_needs_reference {rt : PyRuntime} (client : glpi)
    (self : SimilarityService) (env : pool_env) (ticket_id : Z)
    (kwargs : similar_kwargs) (out : list sim_result) :
  TicketService.find_similar_tickets client self env ticket_id kwargs = inr out ->
  (0 < ticket_id)%Z
  /\ exists reference,
       ticket_response client ticket_id = inr reference
       /\ is_Some (reference !! "id").
Proof.
  intros H. apply ticket_find_similar_inv in H as (Hpos & reference & c & H1 & H2 & _).
  split; [assumption|]. exists reference. split; assumption.
Qed.

Lemma ticket_find_similar_needs_reference_witness :
  (0 < 1)%Z
  /\ exists reference,
       ticket_response sample_glpi 1 = inr reference
       /\ is_Some (reference !! "id").
Proof.
  eapply (ticket_find_similar_needs_reference (rt := AsciiRuntime.ascii_runtime)
            sample_glpi sample_service sample_pool 1 no_kwargs).
  reflexivity.
Defined.

(** X25: the reference ticket is never among its own similar tickets: in
    every entry returned by [TicketService.find_similar_tickets], [id1]
    and [id2] are the id of one listed ticket, and that id is not the
    integer [ticket_id]. *)
Theorem ticket_find_similar_excludes_reference {rt : PyRuntime} (client : glpi)
    (self : SimilarityService) (env : pool_env) (ticket_id : Z)
    (kwargs : similar_kwargs) (out : list sim_result) :
  TicketService.find_similar_tickets client self env ticket_id kwargs = inr out ->
  List.Forall
    (fun r =>
       result_id2 r <> PyInt ticket_id
       /\ result_id1 r = result_id2 r
       /\ exists candidates t,
            list_tickets client (default 200%Z (kw_max_items kwargs)) = inr candidates
            /\ In t candidates
            /\ result_id2 r = dict_get_none t "id")
    out.
Proof.
  intros H.
  apply ticket_find_similar_inv in H as (_ & reference & cands & _ & _ & Hl & ->).
  apply List.Forall_forall. intros r Hr.
  apply find_similar_tickets_In in Hr as [_ (c & Hc & ->)].
  apply in_map_iff in Hc as (t & <- & Ht).
  apply filter_In in Ht as [Ht Hne].
  pose proof (worker_ids (candidate_args
                            (dict_get (similarity_view reference) "content")
                            (dict_get (similarity_view reference) "title")
                            (similarity_view t))) as Hids.
  unfold candidate_args in Hids |- *. destruct Hids as [-> ->].
  rewrite similarity_view_id. split; [|split; [reflexivity|]].
  - intros E. rewrite E in Hne. cbn [py_ne_int] in Hne.
    rewrite Z.eqb_refl in Hne. discriminate.
  - exists cands, t. repeat split; assumption.
Qed.

Lemma ticket_find_similar_excludes_reference_witness :
  List.Forall
    (fun r =>
       result_id2 r <> PyInt 1
       /\ result_id1 r = result_id2 r
       /\ exists candidates t,
            list_tickets sample_glpi (default 200%Z (kw_max_items no_kwargs))
            = inr candidates
            /\ In t candidates
            /\ result_id2 r = dict_get_none t "id")
    (find_similar_tickets (rt := AsciiRuntime.ascii_runtime) sample_service sample_pool
       (similarity_view (glpi_ticket 1)) [similarity_view (glpi_ticket 2)]
       0.3%R 10%Z).
Proof.
  apply (ticket_find_similar_excludes_reference (rt := AsciiRuntime.ascii_runtime)
           sample_glpi sample_service sample_pool 1 no_kwargs).
  reflexivity.
Defined.

(** X26: called without keyword arguments, the caller asks for a
    threshold of 0.3 and at most 10 results: the list it returns has at
    most 10 entries, none is an error entry, and each has a combined
    score between 0.3 and 1. *)
Theorem ticket_find_similar_defaults {rt : PyRuntime} (client : glpi)
    (self : SimilarityService) (env : pool_env) (ticket_id : Z)
    (out : list sim_result) :
  TicketService.find_similar_tickets client self env ticket_id no_kwargs = inr out ->
  length out <= 10
  /\ List.Forall
       (fun r => has_error r = false /\ (0.3 <= result_combined r <= 1)%R)
       out.
Proof.
  intros H.
  apply ticket_find_similar_inv in H as (_ & reference & cands & _ & _ & _ & ->).
  cbn [default no_kwargs kw_threshold kw_max_results]. split.
  - rewrite find_similar_tickets_unfold. destruct (is_nil _); [simpl; lia|].
    pose proof (py_take_length 10
                  (sort_by_combined
                     (List.filter (accepted 0.3)
                        (arrived self env
                           (map (candidate_args
                                   (dict_get (similarity_view reference) "content")
                                   (dict_get (similarity_view reference) "title"))
                              (candidates_kept self
                                 (map similarity_view
                                    (List.filter
                                       (fun t => py_ne_int (dict_get_none t "id")
                                                   ticket_id)
                                       cands)))))))
                  ltac:(lia)) as Hlen.
    lia.
  - apply List.Forall_forall. intros r Hr.
    apply find_similar_tickets_In in Hr as [Hacc (c & _ & ->)].
    apply accepted_spec in Hacc as [He Ht].
    split; [assumption|]. split; [assumption|apply worker_combined_range].
Qed.

Lemma ticket_find_similar_defaults_witness :
  length (find_similar_tickets (rt := AsciiRuntime.ascii_runtime) sample_service
            sample_pool (similarity_view (glpi_ticket 1))
            [similarity_view (glpi_ticket 2)] 0.3%R 10%Z) <= 10
  /\ List.Forall
       (fun r => has_error r = false /\ (0.3 <= result_combined r <= 1)%R)
       (find_similar_tickets (rt := AsciiRuntime.ascii_runtime) sample_service
          sample_pool (similarity_view (glpi_ticket 1))
          [similarity_view (glpi_ticket 2)] 0.3%R 10%Z).
Proof.
  apply (ticket_find_similar_defaults (rt := AsciiRuntime.ascii_runtime)
           sample_glpi sample_service sample_pool 1).
  reflexivity.
Defined.

(** ** The normal form of a text *)

(** X27: on a string [normalize_text] never raises, and what it returns
    is in normal form: its only whitespace is single spaces between
    words, none at either end; every other character is a word
    character of the lower-cased, decomposed input that is not a
    nonspacing mark; and it is no longer than the lower-cased,
    decomposed input. *)
Theorem normalize_text_normal_form {rt : PyRuntime} (s : ustring) :
  exists t,
    normalize_text (PyStr s) = Ret t
    /\ collapsed t
    /\ no_outer_whitespace t
    /\ (forall c, In c t ->
          c = SPACE
          \/ (In c (unicodedata_nfd (str_lower s))
              /\ re_word c = true /\ re_space c = false /\ category_Mn c = false))
    /\ length t <= length (unicodedata_nfd (str_lower s)).
Proof.
  exists (norm s). split; [apply normalize_text_str|].
  destruct s as [|c0 s].
  - cbn [norm]. repeat split; try easy. cbn [length]. apply Nat.le_0_l.
  - unfold norm. split; [apply normalize_str_collapsed|].
    split; [apply strip_no_outer_whitespace|].
    split; [intros c; apply In_normalize_str|apply normalize_str_length].
Qed.
